(** * Request authentication of the ONDC connector: a shallow embedding

    The development follows three source modules of the connector:

    - [auth/signatureVerifier.js]  ([generateBlake2bHash], [verifyEd25519Signature],
      [verifySignature]),
    - [auth/authMiddleware.js]     ([parseAuthHeader], [verifyAuthentication]),
    - [auth/keyGenerator.js]       ([extractRawKeyFromPem], [generateSigningKeyPair],
      [loadKeys]).

    JavaScript strings are modelled as [string] (a sequence of octets: header and
    key text is ASCII, other text is read as its UTF-8 encoding; base64 decoding
    is the platform's for text of characters below 256), Node [Buffer]s as
    [list byte].  Logging, exceptions and [try]/[catch] are modelled by a small
    writer-and-error monad [Eff].  The platform primitives the code calls are
    embedded next to it: base64 as Node implements it for buffers, BLAKE2b-512
    (RFC 7693) as provided by [crypto.createHash('blake2b512')], and the PEM, SPKI
    and PKCS#8 envelopes of Ed25519 keys (RFC 7468, RFC 8410).  The Ed25519
    verification primitive [crypto.verify] and the registry lookup are parameters. *)

From Stdlib Require Import ZArith NArith Lia.
From Stdlib Require Import Strings.String Strings.Ascii Strings.Byte.
From Stdlib Require DecimalString.
From stdpp Require Import base option list strings gmap fin_maps.

Local Open Scope string_scope.
Local Open Scope list_scope.

(** ** Octets and strings *)

Definition byte_of_N (n : N) : byte := default x00 (Byte.of_N (n mod 256)).

Definition byte_of_Z (z : Z) : byte := byte_of_N (Z.to_N (z mod 256)).

Definition Z_of_byte (b : byte) : Z := Z.of_N (Byte.to_N b).

Definition LF : ascii := "010"%char.

(** [Buffer.from(s, 'utf8')] and [buf.toString('utf8')] on octet strings. *)
Definition utf8_bytes (s : string) : list byte := list_byte_of_string s.

(** [s.startsWith(p)] *)
Fixpoint starts_with (p s : string) : bool :=
  match p with
  | EmptyString => true
  | String a p' =>
      match s with
      | String b s' => Ascii.eqb a b && starts_with p' s'
      | EmptyString => false
      end
  end.

Fixpoint string_drop (n : nat) (s : string) : string :=
  match n, s with
  | O, _ => s
  | S n', String _ r => string_drop n' r
  | S _, EmptyString => EmptyString
  end.

Fixpoint string_forall (p : ascii -> bool) (s : string) : bool :=
  match s with
  | EmptyString => true
  | String c r => p c && string_forall p r
  end.

(** [s.split(sep)] for a one-character separator. *)
Fixpoint split_on (sep : ascii) (s : string) : list string :=
  match s with
  | EmptyString => [EmptyString]
  | String c r =>
      if Ascii.eqb c sep then EmptyString :: split_on sep r
      else match split_on sep r with
           | seg :: segs => String c seg :: segs
           | [] => [String c EmptyString]
           end
  end.

(** ** Base64 as Node implements it for buffers *)

Module Base64.

Local Open Scope N_scope.

Definition alphabet : string :=
  "ABCDEFGHIJKLMNOPQRSTUVWXYZabcdefghijklmnopqrstuvwxyz0123456789+/".

Definition b64char (n : N) : ascii :=
  match String.get (N.to_nat n) alphabet with
  | Some c => c
  | None => "="%char
  end.

(** The decoding table: the standard and the URL-safe alphabet are both
    accepted, everything else is not a base64 digit. *)
Definition unbase64 (c : ascii) : option N :=
  let n := N_of_ascii c in
  if (65 <=? n) && (n <=? 90) then Some (n - 65)
  else if (97 <=? n) && (n <=? 122) then Some (n - 71)
  else if (48 <=? n) && (n <=? 57) then Some (n + 4)
  else if (n =? 43) || (n =? 45) then Some 62
  else if (n =? 47) || (n =? 95) then Some 63
  else None.

(** [buf.toString('base64')]: standard alphabet, padded with [=]. *)
Fixpoint encode (bs : list byte) : string :=
  match bs with
  | [] => EmptyString
  | [a] =>
      let a := Byte.to_N a in
      String (b64char (a / 4)) (String (b64char ((a mod 4) * 16)) "==")
  | [a; b] =>
      let a := Byte.to_N a in
      let b := Byte.to_N b in
      String (b64char (a / 4))
        (String (b64char ((a mod 4) * 16 + b / 16))
           (String (b64char ((b mod 16) * 4)) "="))
  | a :: b :: c :: r =>
      let a := Byte.to_N a in
      let b := Byte.to_N b in
      let c := Byte.to_N c in
      String (b64char (a / 4))
        (String (b64char ((a mod 4) * 16 + b / 16))
           (String (b64char ((b mod 16) * 4 + c / 64))
              (String (b64char (c mod 64)) (encode r))))
  end.

(** The digits Node's decoder reads: characters outside the table are
    skipped, the first [=] ends the input. *)
Fixpoint sextets (s : string) : list N :=
  match s with
  | EmptyString => []
  | String c r =>
      if Ascii.eqb c "=" then []
      else match unbase64 c with
           | Some v => v :: sextets r
           | None => sextets r
           end
  end.

Fixpoint bytes_of_sextets (l : list N) : list byte :=
  match l with
  | a :: b :: c :: d :: r =>
      byte_of_N (a * 4 + b / 16)
        :: byte_of_N ((b mod 16) * 16 + c / 4)
        :: byte_of_N ((c mod 4) * 64 + d)
        :: bytes_of_sextets r
  | [a; b; c] =>
      [byte_of_N (a * 4 + b / 16); byte_of_N ((b mod 16) * 16 + c / 4)]
  | [a; b] => [byte_of_N (a * 4 + b / 16)]
  | _ => []
  end.

(** [Buffer.from(s, 'base64')] for a string [s]: never fails.  This is Node's
    decoder on text whose characters are all below 256 (ASCII and Latin-1, as
    header text always is): there every character outside the table is
    skipped.  Of a wider character Node reads the low byte only, which this
    octet model does not follow. *)
Definition decode (s : string) : list byte := bytes_of_sextets (sextets s).

End Base64.

(** ** BLAKE2b-512 (RFC 7693), unkeyed, as [crypto.createHash('blake2b512')] *)

Module Blake2b.

Local Open Scope Z_scope.

Definition add64 (x y : Z) : Z := (x + y) mod 2 ^ 64.

Definition rotr64 (n x : Z) : Z :=
  Z.lor (Z.shiftr x n) ((Z.shiftl x (64 - n)) mod 2 ^ 64).

Definition IV : list Z :=
  [ 0x6a09e667f3bcc908; 0xbb67ae8584caa73b; 0x3c6ef372fe94f82b;
    0xa54ff53a5f1d36f1; 0x510e527fade682d1; 0x9b05688c2b3e6c1f;
    0x1f83d9abfb41bd6b; 0x5be0cd19137e2179 ].

Definition SIGMA : list (list nat) :=
  [ [ 0; 1; 2; 3; 4; 5; 6; 7; 8; 9; 10; 11; 12; 13; 14; 15 ];
    [ 14; 10; 4; 8; 9; 15; 13; 6; 1; 12; 0; 2; 11; 7; 5; 3 ];
    [ 11; 8; 12; 0; 5; 2; 15; 13; 10; 14; 3; 6; 7; 1; 9; 4 ];
    [ 7; 9; 3; 1; 13; 12; 11; 14; 2; 6; 5; 10; 4; 0; 15; 8 ];
    [ 9; 0; 5; 7; 2; 4; 10; 15; 14; 1; 11; 12; 6; 8; 3; 13 ];
    [ 2; 12; 6; 10; 0; 11; 8; 3; 4; 13; 7; 5; 15; 14; 1; 9 ];
    [ 12; 5; 1; 15; 14; 13; 4; 10; 0; 7; 6; 3; 9; 2; 8; 11 ];
    [ 13; 11; 7; 14; 12; 1; 3; 9; 5; 0; 15; 4; 8; 6; 2; 10 ];
    [ 6; 15; 14; 9; 11; 3; 0; 8; 12; 2; 13; 7; 1; 4; 10; 5 ];
    [ 10; 2; 8; 4; 7; 6; 1; 5; 15; 11; 9; 14; 3; 12; 13; 0 ] ]%nat.

(** The mixing function on the sixteen-word work vector. *)
Definition G (v : list Z) (a b c d : nat) (x y : Z) : list Z :=
  let v := <[a := add64 (add64 (v !!! a) (v !!! b)) x]> v in
  let v := <[d := rotr64 32 (Z.lxor (v !!! d) (v !!! a))]> v in
  let v := <[c := add64 (v !!! c) (v !!! d)]> v in
  let v := <[b := rotr64 24 (Z.lxor (v !!! b) (v !!! c))]> v in
  let v := <[a := add64 (add64 (v !!! a) (v !!! b)) y]> v in
  let v := <[d := rotr64 16 (Z.lxor (v !!! d) (v !!! a))]> v in
  let v := <[c := add64 (v !!! c) (v !!! d)]> v in
  <[b := rotr64 63 (Z.lxor (v !!! b) (v !!! c))]> v.

Definition round (m : list Z) (v : list Z) (r : nat) : list Z :=
  let s := SIGMA !!! (r mod 10)%nat in
  let w (i : nat) : Z := m !!! (s !!! i) in
  let v := G v 0 4 8 12 (w 0%nat) (w 1%nat) in
  let v := G v 1 5 9 13 (w 2%nat) (w 3%nat) in
  let v := G v 2 6 10 14 (w 4%nat) (w 5%nat) in
  let v := G v 3 7 11 15 (w 6%nat) (w 7%nat) in
  let v := G v 0 5 10 15 (w 8%nat) (w 9%nat) in
  let v := G v 1 6 11 12 (w 10%nat) (w 11%nat) in
  let v := G v 2 7 8 13 (w 12%nat) (w 13%nat) in
  G v 3 4 9 14 (w 14%nat) (w 15%nat).

(** The compression function F: [h] the chain value, [m] the sixteen message
    words, [t] the byte counter, [last] the finalisation flag. *)
Definition compress (h m : list Z) (t : Z) (last : bool) : list Z :=
  let v := h ++ IV in
  let v := <[12%nat := Z.lxor (v !!! 12%nat) (t mod 2 ^ 64)]> v in
  let v := <[13%nat := Z.lxor (v !!! 13%nat) (t / 2 ^ 64)]> v in
  let v := if last then <[14%nat := Z.lxor (v !!! 14%nat) (Z.ones 64)]> v else v in
  let v := fold_left (round m) (seq 0 12) v in
  map (fun i : nat => Z.lxor (Z.lxor (h !!! i) (v !!! i)) (v !!! (i + 8)%nat)) (seq 0 8).

Definition le_word (bs : list byte) : Z :=
  fold_right (fun b acc => Z_of_byte b + 256 * acc) 0 bs.

(** Sixteen little-endian words of a block; a short block is zero padded. *)
Definition block_words (block : list byte) : list Z :=
  map (fun i : nat => le_word (take 8 (drop (8 * i) block))) (seq 0 16).

Definition le_bytes (w : Z) : list byte :=
  map (fun k : nat => byte_of_Z (Z.shiftr w (8 * Z.of_nat k))) (seq 0 8).

(** Parameter block of an unkeyed hash with a 64-byte digest. *)
Definition h0 : list Z := <[0%nat := Z.lxor (IV !!! 0%nat) 0x01010040]> IV.

(** Streaming absorption: a full buffer is compressed only once more input
    arrives, so that the last block (possibly full, possibly empty) is the
    one compressed with the finalisation flag. *)
Fixpoint absorb (h : list Z) (t : Z) (buf data : list byte) : list Z :=
  match data with
  | [] => compress h (block_words buf) (t + Z.of_nat (length buf)) true
  | b :: r =>
      if (length buf =? 128)%nat
      then absorb (compress h (block_words buf) (t + 128) false) (t + 128) [b] r
      else absorb h t (buf ++ [b]) r
  end.

Definition blake2b512 (data : list byte) : list byte :=
  flat_map le_bytes (absorb h0 0 [] data).

End Blake2b.

(** ** Effects of the JavaScript code: logging, exceptions, [try]/[catch] *)

(** Thrown values.  The gate only asks whether an error is an [ApiError]
    ([utils/errorHandler.js]: a message and an HTTP status); every other error
    (a [TypeError] of the platform, a provider or network error) is [OtherError]. *)
Inductive JsError : Type :=
  | ApiError (message : string) (status : Z)
  | OtherError (name message : string).

Definition error_message (e : JsError) : string :=
  match e with
  | ApiError m _ => m
  | OtherError _ m => m
  end.

Inductive Level : Type := LWarn | LError.

Record LogEntry : Type := mkLog { level : Level; text : string }.

Inductive Completion (A : Type) : Type :=
  | Normal (a : A)
  | Throw (e : JsError).

Arguments Normal {A} a.
Arguments Throw {A} e.

(** A computation writes log entries and completes normally or abruptly. *)
Definition Eff (A : Type) : Type := (list LogEntry * Completion A)%type.

Definition eff_ret {A} (a : A) : Eff A := ([], Normal a).

Definition eff_bind {A B} (f : A -> Eff B) (m : Eff A) : Eff B :=
  match m with
  | (l1, Normal a) => let (l2, r) := f a in (l1 ++ l2, r)
  | (l1, Throw e) => (l1, Throw e)
  end.

#[global] Instance Eff_ret : MRet Eff := @eff_ret.
#[global] Instance Eff_bind : MBind Eff := @eff_bind.

Definition throw {A} (e : JsError) : Eff A := ([], Throw e).

Definition lift {A} (c : Completion A) : Eff A := ([], c).

Definition log (lv : Level) (msg : string) : Eff unit :=
  ([mkLog lv msg], Normal tt).

(** [try { m } catch (error) { handler error }] *)
Definition try_catch {A} (m : Eff A) (handler : JsError -> Eff A) : Eff A :=
  match m with
  | (l1, Throw e) => let (l2, r) := handler e in (l1 ++ l2, r)
  | (l1, Normal a) => (l1, Normal a)
  end.

Definition logs {A} (m : Eff A) : list LogEntry := fst m.
Definition outcome {A} (m : Eff A) : Completion A := snd m.

(** ** JavaScript values reaching the verifier *)

Inductive JsData : Type :=
  | JsUndefined
  | JsString (s : string)
  | JsBuffer (b : list byte).

Inductive Encoding : Type := Utf8 | B64.

(** [Buffer.from(value, encoding)]: a string is decoded, a buffer is copied,
    [undefined] is a [TypeError]. *)
Definition Buffer_from (value : JsData) (enc : Encoding) : Eff (list byte) :=
  match value with
  | JsString s =>
      mret (match enc with Utf8 => utf8_bytes s | B64 => Base64.decode s end)
  | JsBuffer b => mret b
  | JsUndefined =>
      throw (OtherError "TypeError"
               "The first argument must be of type string or an instance of Buffer, ArrayBuffer, or Array or an Array-like Object. Received undefined")
  end.

(** Truthiness of a value that is [undefined]/[null] or a string. *)
Definition truthy (v : option string) : bool :=
  match v with
  | Some s => negb (String.eqb s EmptyString)
  | None => false
  end.

(** ** auth/signatureVerifier.js *)

(** The key argument of [crypto.verify]: [{ key: <Buffer>, format: <string> }]. *)
Record KeyInput : Type := mkKey { key : list byte; format : string }.

Section SignatureVerifier.

(** [crypto.verify(null, data, key, signature)]: returns a boolean or throws. *)
Variable crypto_verify : list byte -> KeyInput -> list byte -> Completion bool.

Definition generateBlake2bHash (data : JsData) : Eff (list byte) :=
  try_catch
    (dataBuffer ← match data with
                  | JsBuffer b => mret b
                  | _ => Buffer_from data Utf8
                  end;
     mret (Blake2b.blake2b512 dataBuffer))
    (fun error => log LError "Error generating Blake2b hash";; throw error).

Definition verifyEd25519Signature (message signature publicKey : list byte)
  : Eff bool :=
  try_catch
    (lift (crypto_verify message (mkKey publicKey "raw") signature))
    (fun error => log LError "Error verifying ED25519 signature";; mret false).

Definition verifySignature (body signature : JsData)
    (providedDigest : option string) (publicKey : JsData) : Eff bool :=
  try_catch
    (hash ← generateBlake2bHash body;
     let calculatedDigest := Base64.encode hash in
     if truthy providedDigest
        && negb (String.eqb (default EmptyString providedDigest) calculatedDigest)
     then log LWarn "Digest mismatch";; mret false
     else
       publicKeyBuffer ← Buffer_from publicKey B64;
       signatureBuffer ← Buffer_from signature B64;
       verified ← verifyEd25519Signature hash signatureBuffer publicKeyBuffer;
       mret verified)
    (fun error => log LError "Error verifying signature";; mret false).

End SignatureVerifier.

(** ** auth/authMiddleware.js *)

Record SignatureParams : Type := mkParams {
  subscriberId : string;
  ukId : string;
  algorithm : string;
  signature : string;
  digest : option string;
  created : option string;
  expires : option string
}.

(** *** The attribute grammar: a name of letters, digits and underscores,
    an equals sign, and a double-quoted value without double quotes inside *)

Definition is_word_char (c : ascii) : bool :=
  let n := N_of_ascii c in
  ((97 <=? n) && (n <=? 122) || (65 <=? n) && (n <=? 90)
   || (48 <=? n) && (n <=? 57) || (n =? 95))%N.

Definition is_quote (c : ascii) : bool := Ascii.eqb c "034"%char.

(** Greedy [[a-zA-Z0-9_]*]: the run and what follows it. *)
Fixpoint take_word (s : string) : string * string :=
  match s with
  | String c r =>
      if is_word_char c
      then let (w, rest) := take_word r in (String c w, rest)
      else (EmptyString, s)
  | EmptyString => (EmptyString, EmptyString)
  end.

(** Greedy run of characters other than the double quote, and what follows. *)
Fixpoint take_value (s : string) : string * string :=
  match s with
  | String c r =>
      if is_quote c then (EmptyString, s)
      else let (v, rest) := take_value r in (String c v, rest)
  | EmptyString => (EmptyString, EmptyString)
  end.

(** A match of the pattern anchored at the head of [s]: the two groups and
    the length of the matched text.  Both runs are delimited by a character
    outside their class, so the greedy choice is the only one that can match. *)
Definition match_at (s : string) : option (string * string * nat) :=
  match take_word s with
  | (String c w, String "=" (String q r)) =>
      if is_quote q then
        match take_value r with
        | (v, String _ _) =>
            Some (String c w, v, (String.length (String c w) + 2 + String.length v + 1)%nat)
        | (_, EmptyString) => None
        end
      else None
  | _ => None
  end.

(** The [while ((match = regex.exec(s)) !== null)] loop: all matches from left
    to right; [skip] counts the characters still covered by the previous
    match (the regex resumes at its [lastIndex]). *)
Fixpoint exec_all (skip : nat) (s : string) : list (string * string) :=
  match s with
  | EmptyString => []
  | String _ r =>
      match skip with
      | S k => exec_all k r
      | O =>
          match match_at s with
          | Some (name, value, len) => (name, value) :: exec_all (len - 1) r
          | None => exec_all 0 r
          end
      end
  end.

(** [components[match[1]] = match[2]] for every match, in order.  The map
    holds the own properties of [components], a plain object: an assignment
    under the name [__proto__] reaches the setter inherited from
    [Object.prototype], which ignores a string, and stores nothing; every
    other name becomes an own property. *)
Definition assign (components : gmap string string) (m : string * string)
  : gmap string string :=
  if String.eqb m.1 "__proto__" then components else <[m.1 := m.2]> components.

Definition parse_components (signaturePart : string) : gmap string string :=
  foldl assign ∅ (exec_all 0 signaturePart).

Definition parseAuthHeader (authHeader : string) : Eff (option SignatureParams) :=
  try_catch
    (if negb (starts_with "Signature " authHeader) then mret None
     else
       let signaturePart := string_drop 10 authHeader in
       let components := parse_components signaturePart in
       if negb (truthy (components !! "keyId"))
          || negb (truthy (components !! "signature"))
          || negb (truthy (components !! "algorithm"))
       then mret None
       else
         let keyIdParts := split_on "|" (default EmptyString (components !! "keyId")) in
         match keyIdParts with
         | [subscriberId; ukId; keyAlgorithm] =>
             let digest :=
               if truthy (components !! "digest") then components !! "digest"
               else None in
             mret (Some {| subscriberId := subscriberId;
                           ukId := ukId;
                           algorithm := default EmptyString (components !! "algorithm");
                           signature := default EmptyString (components !! "signature");
                           digest := digest;
                           created := components !! "created";
                           expires := components !! "expires" |})
         | _ => mret None
         end)
    (fun error => log LError "Error parsing auth header";; mret None).

(** *** The gate *)

Record Request : Type := mkRequest {
  path : string;
  authorization : option string;   (* [req.headers.authorization] *)
  rawBody : JsData
}.

(** What the registry returns for a subscriber; [signing_public_key] is read
    by the gate, the identity is carried along. *)
Record Subscriber : Type := mkSubscriber {
  subscriber_id : string;
  unique_key_id : string;
  signing_public_key : JsData
}.

(** [res.status(s).json({ message: { ack: { status } }, error: { code, message } })] *)
Record Response : Type := mkResponse {
  status : Z;
  ack_status : string;
  error_code : string;
  error_text : string
}.

(** The gate either calls [next()] (with [req.subscriber] set or not) or
    answers the request itself. *)
Inductive GateAction : Type :=
  | Next (attached : option Subscriber)
  | Respond (r : Response).

(** [String(n)] for an integer status. *)
Definition String_of_status (n : Z) : string := DecimalString.NilZero.string_of_int (Z.to_int n).

Definition nack (s : Z) (code msg : string) : Response :=
  {| status := s; ack_status := "NACK"; error_code := code; error_text := msg |}.

Section AuthenticationGate.

Variable crypto_verify : list byte -> KeyInput -> list byte -> Completion bool.

(** [await registryService.lookupSubscriber(subscriberId, ukId)]: the promise
    resolves to a subscriber or to nothing, or is rejected. *)
Variable lookupSubscriber : string -> string -> Completion (option Subscriber).

Definition verifyAuthentication (req : Request) : Eff GateAction :=
  try_catch
    (if String.eqb (path req) "/health" || starts_with "/internal/" (path req)
     then mret (Next None)
     else
       if negb (truthy (authorization req))
       then log LWarn "Missing authorization header";;
            throw (ApiError "Missing authorization header" 401)
       else
         authComponents ← parseAuthHeader (default EmptyString (authorization req));
         match authComponents with
         | None =>
             log LWarn "Invalid authorization header format";;
             throw (ApiError "Invalid authorization header format" 401)
         | Some c =>
             subscriber ← lift (lookupSubscriber (subscriberId c) (ukId c));
             match subscriber with
             | None =>
                 log LWarn "Could not find subscriber in registry";;
                 throw (ApiError "Subscriber not found" 401)
             | Some sub =>
                 isValid ← verifySignature crypto_verify (rawBody req)
                             (JsString (signature c)) (digest c)
                             (signing_public_key sub);
                 if negb isValid
                 then log LWarn "Signature verification failed";;
                      throw (ApiError "Signature verification failed" 401)
                 else mret (Next (Some sub))
             end
         end)
    (fun error =>
       match error with
       | ApiError msg st => mret (Respond (nack st (String_of_status st) msg))
       | OtherError _ _ =>
           log LError "Authentication error";;
           mret (Respond (nack 401 "401" "Authentication failed"))
       end).

End AuthenticationGate.

(** ** auth/keyGenerator.js *)

(** *** The envelopes produced by [crypto.generateKeyPairSync] *)

(** The key material drawn by the provider: a 32-byte private seed and the
    32-byte public key. *)
Record KeyMaterial : Type := mkMaterial {
  secret_bytes : list byte;
  public_bytes : list byte
}.

Inductive Curve : Type := Ed25519 | X25519.

(** Last octet of the algorithm identifier: 1.3.101.112 and 1.3.101.110. *)
Definition curve_oid (c : Curve) : byte :=
  match c with Ed25519 => x70 | X25519 => x6e end.

(** SubjectPublicKeyInfo (RFC 8410): a 12-byte DER header, then the key. *)
Definition spki_header (c : Curve) : list byte :=
  [x30; x2a; x30; x05; x06; x03; x2b; x65; curve_oid c; x03; x21; x00].

Definition spki_der (c : Curve) (pub : list byte) : list byte :=
  spki_header c ++ pub.

(** PKCS#8 PrivateKeyInfo (RFC 8410): a 16-byte DER header, then the seed. *)
Definition pkcs8_header (c : Curve) : list byte :=
  [x30; x2e; x02; x01; x00; x30; x05; x06; x03; x2b; x65; curve_oid c;
   x04; x22; x04; x20].

Definition pkcs8_der (c : Curve) (sk : list byte) : list byte :=
  pkcs8_header c ++ sk.

(** Base64 text in lines of 64 characters, each ended by a line feed. *)
Fixpoint wrap_lines (col : nat) (s : string) : string :=
  match s with
  | EmptyString => if (col =? 0)%nat then EmptyString else String LF EmptyString
  | String c r =>
      if (col =? 64)%nat then String LF (String c (wrap_lines 1 r))
      else String c (wrap_lines (S col) r)
  end.

(** PEM armour (RFC 7468). *)
Definition pem_encode (label : string) (der : list byte) : string :=
  "-----BEGIN " +:+ label +:+ "-----" +:+ String LF EmptyString
  +:+ wrap_lines 0 (Base64.encode der)
  +:+ "-----END " +:+ label +:+ "-----" +:+ String LF EmptyString.

(** [crypto.generateKeyPairSync(curve, { publicKeyEncoding: spki/pem,
    privateKeyEncoding: pkcs8/pem })] for the material [km]. *)
Definition generateKeyPairSync (c : Curve) (km : KeyMaterial) : string * string :=
  (pem_encode "PUBLIC KEY" (spki_der c (public_bytes km)),
   pem_encode "PRIVATE KEY" (pkcs8_der c (secret_bytes km))).

(** *** The regular expressions of [extractRawKeyFromPem] *)

(** The dot of a regular expression stops at a line terminator: LF, CR,
    U+2028 and U+2029 (the latter two as their UTF-8 octets). *)
Definition at_line_terminator (s : string) : bool :=
  starts_with (String "010"%char EmptyString) s
  || starts_with (String "013"%char EmptyString) s
  || starts_with (String "226"%char (String "128"%char (String "168"%char EmptyString))) s
  || starts_with (String "226"%char (String "128"%char (String "169"%char EmptyString))) s.

(** A lazy run of dots followed by [close], anchored at the head of [s]:
    what follows the match. *)
Fixpoint lazy_until (close : string) (s : string) : option string :=
  if starts_with close s then Some (string_drop (String.length close) s)
  else match s with
       | EmptyString => None
       | String _ r => if at_line_terminator s then None else lazy_until close r
       end.

(** [s.replace(/open.*?close/, '')]: the leftmost match is removed. *)
Fixpoint remove_first (open close : string) (s : string) : string :=
  match (if starts_with open s
         then lazy_until close (string_drop (String.length open) s)
         else None) with
  | Some rest => rest
  | None =>
      match s with
      | EmptyString => EmptyString
      | String c r => String c (remove_first open close r)
      end
  end.

(** [s.replace(/\n/g, '')] *)
Fixpoint remove_newlines (s : string) : string :=
  match s with
  | EmptyString => EmptyString
  | String c r =>
      if Ascii.eqb c LF then remove_newlines r else String c (remove_newlines r)
  end.

Definition extractRawKeyFromPem (pemKey : string) : list byte :=
  let base64Key :=
    remove_newlines
      (remove_first "-----END" "-----"
         (remove_first "-----BEGIN" "-----" pemKey)) in
  Base64.decode base64Key.

Record KeyPair : Type := mkKeyPair { publicKey : string; privateKey : string }.

Definition generateSigningKeyPair (km : KeyMaterial) : KeyPair :=
  let (publicKey, privateKey) := generateKeyPairSync Ed25519 km in
  let publicKeyRaw := extractRawKeyFromPem publicKey in
  let privateKeyRaw := extractRawKeyFromPem privateKey in
  {| publicKey := Base64.encode publicKeyRaw;
     privateKey := Base64.encode privateKeyRaw |}.

Definition generateEncryptionKeyPair (km : KeyMaterial) : KeyPair :=
  let (publicKey, privateKey) := generateKeyPairSync X25519 km in
  let publicKeyRaw := extractRawKeyFromPem publicKey in
  let privateKeyRaw := extractRawKeyFromPem privateKey in
  {| publicKey := Base64.encode publicKeyRaw;
     privateKey := Base64.encode privateKeyRaw |}.

(** *** Loading keys from the environment or from files *)

Record Keys : Type := mkKeys {
  signingPublicKey : option string;
  signingPrivateKey : option string;
  encryptionPublicKey : option string;
  encryptionPrivateKey : option string
}.

(** A path that exists holds text, or cannot be read (a directory, a file
    without read permission): [fs.readFileSync] throws there. *)
Inductive FsEntry : Type :=
  | FsFile (contents : string)
  | FsUnreadable (e : JsError).

Definition existsSync (fs : gmap string FsEntry) (p : string) : bool :=
  match fs !! p with
  | Some _ => true
  | None => false
  end.

Definition readFileSync (fs : gmap string FsEntry) (p : string) : Completion string :=
  match fs !! p with
  | Some (FsFile c) => Normal c
  | Some (FsUnreadable e) => Throw e
  | None => Throw (OtherError "Error" "ENOENT: no such file or directory")
  end.

Definition set_signingPrivateKey (v : string) (k : Keys) : Keys :=
  mkKeys (signingPublicKey k) (Some v) (encryptionPublicKey k) (encryptionPrivateKey k).
Definition set_signingPublicKey (v : string) (k : Keys) : Keys :=
  mkKeys (Some v) (signingPrivateKey k) (encryptionPublicKey k) (encryptionPrivateKey k).
Definition set_encryptionPrivateKey (v : string) (k : Keys) : Keys :=
  mkKeys (signingPublicKey k) (signingPrivateKey k) (encryptionPublicKey k) (Some v).
Definition set_encryptionPublicKey (v : string) (k : Keys) : Keys :=
  mkKeys (signingPublicKey k) (signingPrivateKey k) (Some v) (encryptionPrivateKey k).

Section KeyLoading.

(** [path.join] and [String.prototype.trim] of the platform. *)
Variable path_join : string -> string -> string.
Variable trim : string -> string.

(** [process.env] and the file system at the time of the call. *)
Variable env : gmap string string.
Variable fs : gmap string FsEntry.

(** One [if (fs.existsSync(p)) { keys.field = fs.readFileSync(p, 'utf8').trim(); }]
    statement: the record after it, and whether it threw. *)
Definition load_file (p : string) (set : string -> Keys -> Keys) (keys : Keys)
  : Keys * Completion unit :=
  if existsSync fs p then
    match readFileSync fs p with
    | Normal c => (set (trim c) keys, Normal tt)
    | Throw e => (keys, Throw e)
    end
  else (keys, Normal tt).

(** Sequencing inside the [try] block: a throw skips what follows and keeps
    the assignments already made. *)
Definition and_then (st : Keys * Completion unit)
    (next : Keys -> Keys * Completion unit) : Keys * Completion unit :=
  match st with
  | (keys, Normal _) => next keys
  | (keys, Throw e) => (keys, Throw e)
  end.

(** The keys, and the lines written with [console.error]. *)
Definition loadKeys : Keys * list string :=
  let keys :=
    {| signingPublicKey := env !! "ONDC_SIGNING_PUBLIC_KEY";
       signingPrivateKey := env !! "ONDC_SIGNING_PRIVATE_KEY";
       encryptionPublicKey := env !! "ONDC_ENCRYPTION_PUBLIC_KEY";
       encryptionPrivateKey := env !! "ONDC_ENCRYPTION_PRIVATE_KEY" |} in
  if negb (truthy (signingPrivateKey keys)) then
    let keysDir :=
      if truthy (env !! "KEYS_DIR") then default EmptyString (env !! "KEYS_DIR")
      else "./keys" in
    let st := load_file (path_join keysDir "signing_private_key.b64")
                set_signingPrivateKey keys in
    let st := and_then st (load_file (path_join keysDir "signing_public_key.b64")
                             set_signingPublicKey) in
    let st := and_then st (load_file (path_join keysDir "encryption_private_key.b64")
                             set_encryptionPrivateKey) in
    let st := and_then st (load_file (path_join keysDir "encryption_public_key.b64")
                             set_encryptionPublicKey) in
    match st with
    | (keys', Normal _) => (keys', [])
    | (keys', Throw e) =>
        (keys', ["Error loading keys from files: " +:+ error_message e])
    end
  else (keys, []).

End KeyLoading.

(** ** Reading aids and sample inputs *)

(** The octets a body denotes when it can be hashed at all. *)
Definition data_bytes (data : JsData) : option (list byte) :=
  match data with
  | JsBuffer b => Some b
  | JsString s => Some (utf8_bytes s)
  | JsUndefined => None
  end.

(** The octets [Buffer.from(value, 'base64')] yields when it does not throw. *)
Definition b64_buffer (value : JsData) : option (list byte) :=
  match value with
  | JsBuffer b => Some b
  | JsString s => Some (Base64.decode s)
  | JsUndefined => None
  end.

(** The base64 digest string the verifier computes for a body. *)
Definition calculatedDigest (bs : list byte) : string :=
  Base64.encode (Blake2b.blake2b512 bs).

(** The condition under which the gate skips verification. *)
Definition bypass (p : string) : bool :=
  String.eqb p "/health" || starts_with "/internal/" p.

(** The key pair of the first test vector of RFC 8032. *)
Definition rfc8032_secret : list byte :=
  [
    x9d; x61; xb1; x9d; xef; xfd; x5a; x60;
    xba; x84; x4a; xf4; x92; xec; x2c; xc4;
    x44; x49; xc5; x69; x7b; x32; x69; x19;
    x70; x3b; xac; x03; x1c; xae; x7f; x60 ].

Definition rfc8032_public : list byte :=
  [
    xd7; x5a; x98; x01; x82; xb1; x0a; xb7;
    xd5; x4b; xfe; xd3; xc9; x64; x07; x3a;
    x0e; xe1; x72; xf3; xda; xa6; x23; x25;
    xaf; x02; x1a; x68; xf7; x07; x51; x1a ].

Definition sample_material : KeyMaterial := mkMaterial rfc8032_secret rfc8032_public.

(** Providers used to exercise the verifier: one that accepts every signature
    under a raw key of exactly 32 bytes and refuses any other key, one that
    rejects every signature, one that accepts every signature. *)
Definition accept_raw32 (m : list byte) (k : KeyInput) (s : list byte)
  : Completion bool :=
  if (length (key k) =? 32)%nat then Normal true
  else Throw (OtherError "Error" "Unsupported key").

Definition reject_all (m : list byte) (k : KeyInput) (s : list byte)
  : Completion bool := Normal false.

Definition accept_all (m : list byte) (k : KeyInput) (s : list byte)
  : Completion bool := Normal true.

Definition quote : string := String "034"%char EmptyString.

(** [name="value"] *)
Definition attr (name value : string) : string :=
  name +:+ "=" +:+ quote +:+ value +:+ quote.

Definition sample_subscriber : Subscriber :=
  mkSubscriber "buyer.example" "k1"
    (JsString "11qYAYKxCrfVS/7TyWQHOg7hcvPapiMlrwIaaPcHURo=").

Definition registry_with_sample (subscriberId ukId : string)
  : Completion (option Subscriber) := Normal (Some sample_subscriber).

Definition registry_empty (subscriberId ukId : string)
  : Completion (option Subscriber) := Normal None.

Definition registry_timeout (subscriberId ukId : string)
  : Completion (option Subscriber) := Throw (OtherError "Error" "timeout of 5000ms exceeded").

Definition registry_unavailable (subscriberId ukId : string)
  : Completion (option Subscriber) := Throw (ApiError "Registry unavailable" 503).

(** A well-formed header without a declared digest. *)
Definition header_plain : string :=
  "Signature " +:+ attr "keyId" "buyer.example|k1|ed25519" +:+ ","
  +:+ attr "algorithm" "ed25519" +:+ "," +:+ attr "created" "1700000000" +:+ ","
  +:+ attr "expires" "1700000300" +:+ "," +:+ attr "headers" "(created) (expires) digest"
  +:+ "," +:+ attr "signature" "c2lnbmF0dXJl".

(** The same header declaring a digest that is not the digest of the body. *)
Definition header_wrong_digest : string :=
  header_plain +:+ "," +:+ attr "digest" "AAAA".

Definition request_plain : Request :=
  mkRequest "/search" (Some header_plain) (JsString "abc").

Definition request_wrong_digest : Request :=
  mkRequest "/search" (Some header_wrong_digest) (JsString "abc").

Definition request_no_header : Request :=
  mkRequest "/search" None (JsString "abc").

(** The attributes the parser reads from a header, in order of appearance. *)
Definition attributes (authHeader : string) : list (string * string) :=
  exec_all 0 (string_drop 10 authHeader).

(** The value of the last attribute named [k], if there is one. *)
Fixpoint last_value (k : string) (l : list (string * string)) : option string :=
  match l with
  | [] => None
  | (k', v) :: r =>
      match last_value k r with
      | Some v' => Some v'
      | None => if String.eqb k' k then Some v else None
      end
  end.

Fixpoint count_char (c : ascii) (s : string) : nat :=
  match s with
  | EmptyString => O
  | String x r => (if Ascii.eqb x c then 1 else 0) + count_char c r
  end.

(** A header in which [signature] appears twice, first with an empty value. *)
Definition header_signature_twice : string :=
  "Signature " +:+ attr "keyId" "buyer.example|k1|ed25519" +:+ ","
  +:+ attr "algorithm" "ed25519" +:+ "," +:+ attr "signature" EmptyString
  +:+ "," +:+ attr "signature" "c2lnbmF0dXJl".

(** A header whose only [signature] attribute is empty. *)
Definition header_signature_empty : string :=
  "Signature " +:+ attr "keyId" "buyer.example|k1|ed25519" +:+ ","
  +:+ attr "algorithm" "ed25519" +:+ "," +:+ attr "signature" EmptyString.

(** The directory [loadKeys] reads from. *)
Definition keys_dir (env : gmap string string) : string :=
  if truthy (env !! "KEYS_DIR") then default EmptyString (env !! "KEYS_DIR")
  else "./keys".

(** What the file branch of [loadKeys] leaves in a field: the trimmed text of
    the file when there is one, otherwise the environment variable. *)
Definition file_or_env (path_join : string -> string -> string)
    (trim : string -> string) (env : gmap string string)
    (fs : gmap string FsEntry) (name variable : string) : option string :=
  match fs !! path_join (keys_dir env) name with
  | Some (FsFile c) => Some (trim c)
  | _ => env !! variable
  end.

(** Simple instances of the platform functions, for the sample inputs. *)
Definition join_with_slash (dir file : string) : string := dir +:+ "/" +:+ file.

Definition is_ascii_space (c : ascii) : bool :=
  let n := N_of_ascii c in ((9 <=? n) && (n <=? 13) || (n =? 32))%N.

Fixpoint trim_start (s : string) : string :=
  match s with
  | String c r => if is_ascii_space c then trim_start r else s
  | EmptyString => EmptyString
  end.

Fixpoint trim_end (s : string) : string :=
  match s with
  | String c r =>
      match trim_end r with
      | EmptyString => if is_ascii_space c then EmptyString else String c EmptyString
      | r' => String c r'
      end
  | EmptyString => EmptyString
  end.

Definition trim_ascii (s : string) : string := trim_end (trim_start s).

(** The signing private key comes from the environment; a public key file
    exists. *)
Definition env_private_only : gmap string string :=
  {[ "ONDC_SIGNING_PRIVATE_KEY" := "c2VjcmV0" ]}.

Definition fs_public_file : gmap string FsEntry :=
  {[ "./keys/signing_public_key.b64" := FsFile "ZmlsZQ==" ]}.

(** Only the signing public key comes from the environment; a public key file
    exists as well. *)
Definition env_public_only : gmap string string :=
  {[ "ONDC_SIGNING_PUBLIC_KEY" := "ZW52" ]}.

(** The entry the verifier logs when the declared digest differs. *)
Definition digest_mismatch : LogEntry := mkLog LWarn "Digest mismatch".

(** A digit of the standard alphabet decodes to its value and is neither the
    padding character, nor a line feed, nor a dash. *)
Definition digit_ok (n : N) : bool :=
  match Base64.unbase64 (Base64.b64char n) with
  | Some m => (m =? n)%N
  | None => false
  end
  && negb (Ascii.eqb (Base64.b64char n) "=")
  && negb (Ascii.eqb (Base64.b64char n) LF)
  && negb (Ascii.eqb (Base64.b64char n) "-").

Definition not_dash (c : ascii) : bool := negb (Ascii.eqb c "-").
Definition not_lf (c : ascii) : bool := negb (Ascii.eqb c LF).

(** Characters of a PEM label: no dash and nothing a regex dot refuses. *)
Definition label_char (c : ascii) : bool :=
  not_dash c && not_lf c && negb (Ascii.eqb c "013") && negb (Ascii.eqb c "226").

(** The digest of the body [abc], canonically encoded and without padding. *)
Definition digest_abc : string :=
  "uoClP5gcTQ1qJ5e2nxL26UwhLxRoWsS3SxK7b9v/otF9h8U5Kqt5LcJS1d5FM8yVGNOKqNvxklq5I4bt1ACZIw==".

Definition digest_abc_unpadded : string :=
  "uoClP5gcTQ1qJ5e2nxL26UwhLxRoWsS3SxK7b9v/otF9h8U5Kqt5LcJS1d5FM8yVGNOKqNvxklq5I4bt1ACZIw".

(** ** Saving generated keys *)

Record SavedKeys : Type := mkSaved {
  signingKeys : KeyPair;
  encryptionKeys : KeyPair
}.

Section KeySaving.

(** [path.join], [fs.mkdirSync(dir, { recursive: true })] and
    [fs.writeFileSync(path, data)] of the platform: the two calls give the
    file system they leave behind, or the error they throw. *)
Variable path_join : string -> string -> string.
Variable mkdirSync : gmap string FsEntry -> string -> Completion (gmap string FsEntry).
Variable writeFileSync :
  gmap string FsEntry -> string -> string -> Completion (gmap string FsEntry).

(** [generateAndSaveKeys(outputDir = './keys')] for the key material the
    provider draws for the two pairs: the file system afterwards, the lines
    written with [console.log], and the value returned or the error thrown
    (the function has no handler of its own). *)
Definition generateAndSaveKeys (signing encryption : KeyMaterial)
    (outputDir : option string) (fs : gmap string FsEntry)
  : gmap string FsEntry * list string * Completion SavedKeys :=
  let outputDir := default "./keys" outputDir in
  match (if negb (existsSync fs outputDir) then mkdirSync fs outputDir
         else Normal fs) with
  | Throw e => (fs, [], Throw e)
  | Normal fs0 =>
      let signingKeys := generateSigningKeyPair signing in
      match writeFileSync fs0 (path_join outputDir "signing_private_key.b64")
              (privateKey signingKeys) with
      | Throw e => (fs0, [], Throw e)
      | Normal fs1 =>
          match writeFileSync fs1 (path_join outputDir "signing_public_key.b64")
                  (publicKey signingKeys) with
          | Throw e => (fs1, [], Throw e)
          | Normal fs2 =>
              let encryptionKeys := generateEncryptionKeyPair encryption in
              match writeFileSync fs2
                      (path_join outputDir "encryption_private_key.b64")
                      (privateKey encryptionKeys) with
              | Throw e => (fs2, [], Throw e)
              | Normal fs3 =>
                  match writeFileSync fs3
                          (path_join outputDir "encryption_public_key.b64")
                          (publicKey encryptionKeys) with
                  | Throw e => (fs3, [], Throw e)
                  | Normal fs4 =>
                      (fs4,
                       ["Keys generated and saved to " +:+ outputDir;
                        "Public keys to register with ONDC:";
                        "Signing Public Key: " +:+ publicKey signingKeys;
                        "Encryption Public Key: " +:+ publicKey encryptionKeys],
                       Normal {| signingKeys := signingKeys;
                                 encryptionKeys := encryptionKeys |})
                  end
              end
          end
      end
  end.

End KeySaving.

(** A file system in which every write succeeds and replaces the entry, and
    a created directory is an entry that cannot be read as a file. *)
Definition write_entry (fs : gmap string FsEntry) (p data : string)
  : Completion (gmap string FsEntry) := Normal (<[p := FsFile data]> fs).

Definition make_directory (fs : gmap string FsEntry) (dir : string)
  : Completion (gmap string FsEntry) :=
  Normal (<[dir := FsUnreadable
                     (OtherError "Error" "EISDIR: illegal operation on a directory, read")]> fs).

Definition encryption_material : KeyMaterial :=
  mkMaterial (repeat x07 32) (repeat x09 32).

Definition env_keys_in_out : gmap string string := {[ "KEYS_DIR" := "out" ]}.

(** A registry whose subscribers registered the public key string of a
    generated signing pair. *)
Definition registry_with_generated (subscriberId ukId : string)
  : Completion (option Subscriber) :=
  Normal (Some (mkSubscriber subscriberId ukId
                  (JsString (publicKey (generateSigningKeyPair sample_material))))).

(** The path of the signing private key is a directory; a public key file
    exists. *)
Definition fs_private_is_directory : gmap string FsEntry :=
  {[ "./keys/signing_private_key.b64"
       := FsUnreadable (OtherError "Error" "EISDIR: illegal operation on a directory, read");
     "./keys/signing_public_key.b64" := FsFile "ZmlsZQ==" ]}.

(** ** utils/errorHandler.js *)

(** What the handler reads of the error it is given: [err.message] and
    [err.status] (a number, or undefined). *)
Record ErrObject : Type := mkErr {
  err_message : string;
  err_status : option Z
}.

(** [new ApiError(message, status = 500)] *)
Definition new_ApiError (message : string) (status : option Z) : ErrObject :=
  {| err_message := message; err_status := Some (default 500%Z status) |}.

(** [res.status(s).json({ error: { message, details } })] *)
Record ErrorResponse : Type := mkErrorResponse {
  er_status : Z;
  er_message : string;
  er_details : string
}.

(** [err.status || 500]: zero and undefined are falsy. *)
Definition status_or_500 (st : option Z) : Z :=
  match st with
  | Some n => if (n =? 0)%Z then 500%Z else n
  | None => 500%Z
  end.

(** [errorHandler(err, req, res, next)], with [process.env.NODE_ENV]. *)
Definition errorHandler (node_env : option string) (err : ErrObject)
  : Eff ErrorResponse :=
  log LError "API Error";;
  mret {| er_status := status_or_500 (err_status err);
          er_message := if String.eqb (err_message err) EmptyString
                        then "Internal Server Error" else err_message err;
          er_details := if String.eqb (default EmptyString node_env) "production"
                        then "An unexpected error occurred"
                        else err_message err |}.

(** ** Headers in the expected format *)

(** Attributes joined by commas. *)
Fixpoint render_attrs (l : list (string * string)) : string :=
  match l with
  | [] => EmptyString
  | [(k, v)] => attr k v
  | (k, v) :: r => attr k v +:+ "," +:+ render_attrs r
  end.

(** Text of ASCII characters only. *)
Definition is_ascii (c : ascii) : bool := (N_of_ascii c <? 128)%N.

Definition is_ascii_text (s : string) : bool := string_forall is_ascii s.

(** A name the attribute grammar reads: one or more word characters. *)
Definition is_name (k : string) : bool :=
  negb (String.eqb k EmptyString) && string_forall is_word_char k.

(** A value the attribute grammar reads: no double quote inside. *)
Definition is_value (v : string) : bool :=
  string_forall (fun c => negb (is_quote c)) v.

Definition no_bar (s : string) : bool :=
  string_forall (fun c => negb (Ascii.eqb c "|")) s.

(** Segments joined by a separator, the inverse of [split_on]. *)
Fixpoint join_with (sep : ascii) (l : list string) : string :=
  match l with
  | [] => EmptyString
  | [s] => s
  | s :: r => s +:+ String sep (join_with sep r)
  end.

(** The header of the format comment in the middleware: the six attributes
    in the order [keyId], [algorithm], [created], [expires], [headers],
    [signature]. *)
Definition expected_header (subscriberId ukId keyAlgorithm algorithm created
    expires headers signature : string) : string :=
  "Signature "
  +:+ render_attrs
        [("keyId", subscriberId +:+ "|" +:+ ukId +:+ "|" +:+ keyAlgorithm);
         ("algorithm", algorithm); ("created", created); ("expires", expires);
         ("headers", headers); ("signature", signature)].

(** * Properties *)

(** ** Base64: decoding inverts encoding *)

Module Base64Facts.

Import Base64.
Local Open Scope N_scope.

Ltac ndiv := zify; Z.to_euclidean_division_equations; lia.

Lemma forall_below_64 (P : N -> bool) :
  forallb P (map N.of_nat (seq 0 64)) = true ->
  forall n, n < 64 -> P n = true.
Proof.
  intros H n Hn. rewrite forallb_forall in H. apply H.
  apply in_map_iff. exists (N.to_nat n). split; [lia |].
  apply in_seq. lia.
Qed.

Lemma digit_ok_all n : n < 64 -> digit_ok n = true.
Proof. apply (forall_below_64 digit_ok). vm_compute. reflexivity. Qed.

Lemma unbase64_b64char n : n < 64 -> unbase64 (b64char n) = Some n.
Proof.
  intros Hn. pose proof (digit_ok_all n Hn) as H. unfold digit_ok in H.
  destruct (unbase64 (b64char n)) as [m|]; [| discriminate H].
  rewrite !andb_true_iff in H. destruct H as [[[H _] _] _].
  apply N.eqb_eq in H. now subst.
Qed.

Lemma b64char_not_pad n : n < 64 -> Ascii.eqb (b64char n) "=" = false.
Proof.
  intros Hn. pose proof (digit_ok_all n Hn) as H. unfold digit_ok in H.
  rewrite !andb_true_iff in H. destruct H as [[[_ H] _] _].
  now apply negb_true_iff in H.
Qed.

Lemma b64char_not_lf n : n < 64 -> Ascii.eqb (b64char n) LF = false.
Proof.
  intros Hn. pose proof (digit_ok_all n Hn) as H. unfold digit_ok in H.
  rewrite !andb_true_iff in H. destruct H as [[[_ _] H] _].
  now apply negb_true_iff in H.
Qed.

Lemma b64char_not_dash n : n < 64 -> Ascii.eqb (b64char n) "-" = false.
Proof.
  intros Hn. pose proof (digit_ok_all n Hn) as H. unfold digit_ok in H.
  rewrite !andb_true_iff in H. destruct H as [_ H].
  now apply negb_true_iff in H.
Qed.

Lemma sextets_digit n s : n < 64 -> sextets (String (b64char n) s) = n :: sextets s.
Proof.
  intros Hn. cbn [sextets].
  now rewrite (b64char_not_pad n Hn), (unbase64_b64char n Hn).
Qed.

Lemma sextets_pad s : sextets (String "=" s) = [].
Proof. reflexivity. Qed.

Lemma to_N_lt (b : byte) : Byte.to_N b < 256.
Proof. pose proof (Byte.to_N_bounded b). lia. Qed.

Lemma byte_of_N_eq (b : byte) (n : N) : n = Byte.to_N b -> byte_of_N n = b.
Proof.
  intros ->. unfold byte_of_N. pose proof (to_N_lt b).
  rewrite N.mod_small by assumption. now rewrite Byte.of_to_N.
Qed.

Lemma list_ind3 {A} (P : list A -> Prop) :
  P [] -> (forall a, P [a]) -> (forall a b, P [a; b]) ->
  (forall a b c r, P r -> P (a :: b :: c :: r)) ->
  forall l, P l.
Proof.
  intros H0 H1 H2 H3. fix IH 1.
  intros [| a [| b [| c r]]]; [exact H0 | apply H1 | apply H2 |].
  apply H3, IH.
Qed.

Lemma sextets_encode (bs : list byte) :
  bytes_of_sextets (sextets (encode bs)) = bs.
Proof.
  induction bs as [| a | a b | a b c r IH] using list_ind3.
  - reflexivity.
  - cbn [encode]. pose proof (to_N_lt a).
    rewrite !sextets_digit by ndiv. rewrite sextets_pad.
    cbn [bytes_of_sextets]. f_equal. apply byte_of_N_eq. ndiv.
  - cbn [encode]. pose proof (to_N_lt a). pose proof (to_N_lt b).
    rewrite !sextets_digit by ndiv. rewrite sextets_pad.
    cbn [bytes_of_sextets]. f_equal; [| f_equal]; apply byte_of_N_eq; ndiv.
  - cbn [encode]. pose proof (to_N_lt a). pose proof (to_N_lt b).
    pose proof (to_N_lt c).
    rewrite !sextets_digit by ndiv.
    cbn [bytes_of_sextets]. rewrite IH.
    f_equal; [| f_equal; [| f_equal]]; apply byte_of_N_eq; ndiv.
Qed.

(** [Buffer.from(buf.toString('base64'), 'base64')] gives [buf] back. *)
Lemma decode_encode (bs : list byte) : decode (encode bs) = bs.
Proof. apply sextets_encode. Qed.

End Base64Facts.

(** ** PEM armour: [extractRawKeyFromPem] returns the DER bytes *)

Module PemFacts.

Import Base64 Base64Facts.

Lemma append_cons x (a b : string) : String x a +:+ b = String x (a +:+ b).
Proof. reflexivity. Qed.

Lemma append_nil (b : string) : EmptyString +:+ b = b.
Proof. reflexivity. Qed.

Lemma append_nil_r (a : string) : a +:+ EmptyString = a.
Proof.
  induction a as [| x a IH]; [reflexivity |]. now rewrite append_cons, IH.
Qed.

Ltac sapp := rewrite ?append_cons, ?append_nil.

Lemma append_assoc_s (a b c : string) : (a +:+ b) +:+ c = a +:+ (b +:+ c).
Proof. induction a as [| x a IH]; sapp; [reflexivity | now rewrite IH]. Qed.

Lemma string_forall_app p a b :
  string_forall p (a +:+ b) = string_forall p a && string_forall p b.
Proof.
  induction a as [| x a IH]; sapp; cbn [string_forall]; [reflexivity |].
  rewrite IH. now rewrite andb_assoc.
Qed.

Lemma prefix_head_ne a s1 c s2 :
  Ascii.eqb a c = false -> starts_with (String a s1) (String c s2) = false.
Proof. intros H. cbn [starts_with]. now rewrite H. Qed.

Lemma eqb_sym_false a c : Ascii.eqb c a = false -> Ascii.eqb a c = false.
Proof. intros H. now rewrite Ascii.eqb_sym. Qed.

Lemma not_terminator c s :
  label_char c = true -> at_line_terminator (String c s) = false.
Proof.
  unfold label_char, not_dash, not_lf, at_line_terminator.
  rewrite !andb_true_iff, !negb_true_iff. intros [[[_ H1] H2] H3].
  rewrite !prefix_head_ne; auto using eqb_sym_false.
Qed.

Lemma lazy_until_label pre rest :
  string_forall label_char pre = true ->
  lazy_until "-----" (pre +:+ "-----" +:+ rest) = Some rest.
Proof.
  induction pre as [| c pre IH]; intros Hpre.
  - reflexivity.
  - cbn [string_forall] in Hpre. apply andb_true_iff in Hpre as [Hc Hpre].
    change (String c pre +:+ "-----" +:+ rest)
      with (String c (pre +:+ "-----" +:+ rest)).
    cbn [lazy_until].
    rewrite prefix_head_ne.
    + rewrite (not_terminator c _ Hc). now apply IH.
    + unfold label_char, not_dash in Hc.
      rewrite !andb_true_iff, !negb_true_iff in Hc.
      apply eqb_sym_false. tauto.
Qed.

Lemma remove_first_skip o close pre rest :
  string_forall not_dash pre = true ->
  remove_first (String "-" o) close (pre +:+ rest)
  = pre +:+ remove_first (String "-" o) close rest.
Proof.
  induction pre as [| c pre IH]; intros Hpre; [reflexivity |].
  cbn [string_forall] in Hpre. apply andb_true_iff in Hpre as [Hc Hpre].
  change (String c pre +:+ rest) with (String c (pre +:+ rest)).
  cbn [remove_first]. rewrite prefix_head_ne.
  - now rewrite IH.
  - unfold not_dash in Hc. apply negb_true_iff in Hc. now apply eqb_sym_false.
Qed.

Lemma remove_newlines_app a b :
  remove_newlines (a +:+ b) = remove_newlines a +:+ remove_newlines b.
Proof.
  induction a as [| c a IH]; [reflexivity |].
  sapp. cbn [remove_newlines]. destruct (Ascii.eqb c LF); sapp; now rewrite IH.
Qed.

Lemma remove_newlines_wrap col s :
  string_forall not_lf s = true -> remove_newlines (wrap_lines col s) = s.
Proof.
  revert col. induction s as [| c s IH]; intros col Hs.
  - cbn. now destruct (col =? 0)%nat.
  - cbn [string_forall] in Hs. apply andb_true_iff in Hs as [Hc Hs].
    unfold not_lf in Hc. apply negb_true_iff in Hc.
    cbn [wrap_lines]. destruct (col =? 64)%nat; cbn [remove_newlines].
    + rewrite Ascii.eqb_refl, Hc. now rewrite IH.
    + rewrite Hc. now rewrite IH.
Qed.

Lemma wrap_not_dash col s :
  string_forall not_dash s = true ->
  string_forall not_dash (wrap_lines col s) = true.
Proof.
  revert col. induction s as [| c s IH]; intros col Hs.
  - cbn. now destruct (col =? 0)%nat.
  - cbn [string_forall] in Hs. apply andb_true_iff in Hs as [Hc Hs].
    cbn [wrap_lines]. destruct (col =? 64)%nat; cbn [string_forall];
      rewrite Hc, IH by assumption; reflexivity.
Qed.

(** Base64 text has neither dashes nor line feeds. *)
Lemma encode_chars (bs : list byte) :
  string_forall (fun c => not_dash c && not_lf c) (encode bs) = true.
Proof.
  assert (D : forall n, (n < 64)%N -> not_dash (b64char n) && not_lf (b64char n) = true).
  { intros n Hn. unfold not_dash, not_lf.
    now rewrite (b64char_not_dash n Hn), (b64char_not_lf n Hn). }
  induction bs as [| a | a b | a b c r IH] using list_ind3.
  - reflexivity.
  - pose proof (to_N_lt a). cbn [encode string_forall].
    rewrite !D by ndiv. reflexivity.
  - pose proof (to_N_lt a). pose proof (to_N_lt b). cbn [encode string_forall].
    rewrite !D by ndiv. reflexivity.
  - pose proof (to_N_lt a). pose proof (to_N_lt b). pose proof (to_N_lt c).
    cbn [encode string_forall]. rewrite !D by ndiv. now rewrite IH.
Qed.

Lemma string_forall_weaken (p q : ascii -> bool) s :
  (forall c, p c = true -> q c = true) ->
  string_forall p s = true -> string_forall q s = true.
Proof.
  intros Hpq. induction s as [| c s IH]; [reflexivity |].
  cbn. rewrite !andb_true_iff. intros [Hc Hs]. auto.
Qed.

(** Stripping the armour of a PEM text gives back the DER bytes inside it. *)
Lemma extract_pem label der :
  string_forall label_char label = true ->
  extractRawKeyFromPem (pem_encode label der) = der.
Proof.
  intros Hl. unfold extractRawKeyFromPem, pem_encode.
  set (W := wrap_lines 0 (encode der)).
  set (nl := String LF EmptyString).
  assert (HW : string_forall not_dash W = true).
  { apply wrap_not_dash.
    eapply string_forall_weaken; [| apply encode_chars].
    intros c H. apply andb_true_iff in H. tauto. }
  assert (Hsp : string_forall label_char (String " " label) = true).
  { cbn [string_forall]. now rewrite Hl. }
  (* the BEGIN line *)
  assert (E1 : remove_first "-----BEGIN" "-----"
                 ("-----BEGIN " +:+ label +:+ "-----" +:+ nl +:+ W
                  +:+ "-----END " +:+ label +:+ "-----" +:+ nl)
               = nl +:+ W +:+ "-----END " +:+ label +:+ "-----" +:+ nl).
  { change ("-----BEGIN " +:+ label +:+ "-----" +:+ nl +:+ W
            +:+ "-----END " +:+ label +:+ "-----" +:+ nl)
      with ("-----BEGIN" +:+ (String " " label +:+ "-----" +:+ nl +:+ W
            +:+ "-----END " +:+ label +:+ "-----" +:+ nl)).
    set (tail := nl +:+ W +:+ "-----END " +:+ label +:+ "-----" +:+ nl).
    pose proof (lazy_until_label (String " " label) tail Hsp) as L.
    repeat first [rewrite append_cons in L | rewrite append_nil in L].
    repeat first [rewrite append_cons | rewrite append_nil].
    cbn [remove_first starts_with Ascii.eqb Bool.eqb andb].
    cbn [String.length string_drop]. now rewrite L. }
  rewrite E1.
  (* the END line *)
  assert (E2 : remove_first "-----END" "-----"
                 ("-----END " +:+ label +:+ "-----" +:+ nl) = nl).
  { change ("-----END " +:+ label +:+ "-----" +:+ nl)
      with ("-----END" +:+ (String " " label +:+ "-----" +:+ nl)).
    pose proof (lazy_until_label (String " " label) nl Hsp) as L.
    repeat first [rewrite append_cons in L | rewrite append_nil in L].
    repeat first [rewrite append_cons | rewrite append_nil].
    cbn [remove_first starts_with Ascii.eqb Bool.eqb andb].
    cbn [String.length string_drop]. now rewrite L. }
  rewrite <- (append_assoc_s nl W).
  rewrite remove_first_skip.
  2:{ rewrite string_forall_app. now rewrite HW. }
  rewrite E2, !remove_newlines_app.
  unfold W. rewrite remove_newlines_wrap.
  2:{ eapply string_forall_weaken; [| apply encode_chars].
      intros c H. apply andb_true_iff in H. tauto. }
  unfold nl. cbn [remove_newlines]. rewrite Ascii.eqb_refl.
  rewrite append_nil, append_nil_r. apply decode_encode.
Qed.

End PemFacts.

(** ** The signature verifier *)

Arguments Blake2b.blake2b512 : simpl never.
Arguments Base64.encode : simpl never.
Arguments Base64.decode : simpl never.

Ltac eff_unfold :=
  unfold mret, mbind, Eff_ret, Eff_bind, eff_ret, eff_bind, throw, lift, log,
    try_catch, logs, outcome in *.

Section VerifierFacts.

Variable crypto_verify : list byte -> KeyInput -> list byte -> Completion bool.

Lemma generateBlake2bHash_value data bs :
  data_bytes data = Some bs ->
  generateBlake2bHash data = ([], Normal (Blake2b.blake2b512 bs)).
Proof. destruct data; intros [= <-]; reflexivity. Qed.

Lemma generateBlake2bHash_throws data :
  data_bytes data = None ->
  exists e, generateBlake2bHash data
            = ([mkLog LError "Error generating Blake2b hash"], Throw e).
Proof. destruct data; intros [=]. eexists. reflexivity. Qed.

(** The verifier, case by case. *)
Lemma verifySignature_cases body sig d pk :
  verifySignature crypto_verify body sig d pk =
  match data_bytes body with
  | None =>
      ([mkLog LError "Error generating Blake2b hash";
        mkLog LError "Error verifying signature"], Normal false)
  | Some bs =>
      if truthy d && negb (String.eqb (default EmptyString d) (calculatedDigest bs))
      then ([digest_mismatch], Normal false)
      else
        match b64_buffer pk, b64_buffer sig with
        | Some pkb, Some sigb =>
            match crypto_verify (Blake2b.blake2b512 bs) (mkKey pkb "raw") sigb with
            | Normal b => ([], Normal b)
            | Throw _ =>
                ([mkLog LError "Error verifying ED25519 signature"], Normal false)
            end
        | _, _ => ([mkLog LError "Error verifying signature"], Normal false)
        end
  end.
Proof.
  unfold verifySignature, calculatedDigest.
  destruct body as [| s | b]; cbn [data_bytes].
  - reflexivity.
  - rewrite (generateBlake2bHash_value (JsString s) _ eq_refl).
    eff_unfold. cbn [app].
    destruct (truthy d && _); [reflexivity |].
    destruct pk, sig; cbn; try reflexivity;
      unfold verifyEd25519Signature; eff_unfold;
      destruct (crypto_verify _ _ _); reflexivity.
  - rewrite (generateBlake2bHash_value (JsBuffer b) _ eq_refl).
    eff_unfold. cbn [app].
    destruct (truthy d && _); [reflexivity |].
    destruct pk, sig; cbn; try reflexivity;
      unfold verifyEd25519Signature; eff_unfold;
      destruct (crypto_verify _ _ _); reflexivity.
Qed.

End VerifierFacts.

(** The verifier always answers, and answers [true] only when every step
    succeeded and the provider accepted the signature. *)
Lemma verifySignature_answers
    (crypto_verify : list byte -> KeyInput -> list byte -> Completion bool)
    (body sig : JsData) (d : option string) (pk : JsData) :
  exists b : bool,
    outcome (verifySignature crypto_verify body sig d pk) = Normal b
    /\ (b = true ->
        exists bs pkb sigb,
          data_bytes body = Some bs /\ b64_buffer pk = Some pkb
          /\ b64_buffer sig = Some sigb
          /\ crypto_verify (Blake2b.blake2b512 bs) (mkKey pkb "raw") sigb
             = Normal true).
Proof.
  rewrite verifySignature_cases.
  destruct (data_bytes body) as [bs |] eqn:Hb.
  2:{ exists false. split; [reflexivity | discriminate]. }
  destruct (truthy d && _).
  { exists false. split; [reflexivity | discriminate]. }
  destruct (b64_buffer pk) as [pkb |] eqn:Hpk.
  2:{ exists false. split; [reflexivity | discriminate]. }
  destruct (b64_buffer sig) as [sigb |] eqn:Hsig.
  2:{ exists false. split; [reflexivity | discriminate]. }
  destruct (crypto_verify _ _ _) as [b | e0] eqn:Hv.
  2:{ exists false. split; [reflexivity | discriminate]. }
  exists b. split; [reflexivity |].
  intros ->. exists bs, pkb, sigb. auto.
Qed.

(** C5.  [verifySignature] is total and fail-closed: for every body, signature,
    optional declared digest and public key it completes normally with a
    boolean, no exception escapes, and whenever an internal step fails
    (hashing throws, a [Buffer.from] throws, the provider throws while parsing
    the key or checking the signature) the boolean is [false]; it is [true] only
    when every step succeeded and the provider answered [true]. *)
Theorem verifySignature_total_fail_closed
    (crypto_verify : list byte -> KeyInput -> list byte -> Completion bool)
    (body sig : JsData) (d : option string) (pk : JsData) :
  exists b : bool,
    outcome (verifySignature crypto_verify body sig d pk) = Normal b
    /\ (forall e, outcome (generateBlake2bHash body) = Throw e -> b = false)
    /\ (forall e, outcome (Buffer_from pk B64) = Throw e -> b = false)
    /\ (forall e, outcome (Buffer_from sig B64) = Throw e -> b = false)
    /\ (forall bs pkb sigb e,
          data_bytes body = Some bs -> b64_buffer pk = Some pkb ->
          b64_buffer sig = Some sigb ->
          crypto_verify (Blake2b.blake2b512 bs) (mkKey pkb "raw") sigb = Throw e ->
          b = false)
    /\ (b = true ->
        exists bs pkb sigb,
          data_bytes body = Some bs /\ b64_buffer pk = Some pkb
          /\ b64_buffer sig = Some sigb
          /\ crypto_verify (Blake2b.blake2b512 bs) (mkKey pkb "raw") sigb
             = Normal true).
Proof.
  destruct (verifySignature_answers crypto_verify body sig d pk)
    as [b [Hout Htrue]].
  exists b. split; [exact Hout |].
  repeat split; try exact Htrue.
  - intros e He. destruct b; [| reflexivity].
    destruct (Htrue eq_refl) as (bs & pkb & sigb & Hb & _).
    destruct body; try discriminate He. discriminate Hb.
  - intros e He. destruct b; [| reflexivity].
    destruct (Htrue eq_refl) as (bs & pkb & sigb & _ & Hpk & _).
    destruct pk; try discriminate He. discriminate Hpk.
  - intros e He. destruct b; [| reflexivity].
    destruct (Htrue eq_refl) as (bs & pkb & sigb & _ & _ & Hsig & _).
    destruct sig; try discriminate He. discriminate Hsig.
  - intros bs' pkb' sigb' e Hb' Hpk' Hsig' He. destruct b; [| reflexivity].
    destruct (Htrue eq_refl) as (bs & pkb & sigb & Hb & Hpk & Hsig & Hv).
    congruence.
Qed.

Lemma verifySignature_total_fail_closed_witness :
  (exists e, outcome (generateBlake2bHash JsUndefined) = Throw e)
  /\ outcome (verifySignature accept_all JsUndefined (JsString "c2lnbmF0dXJl") None
                (signing_public_key sample_subscriber))
     = Normal false.
Proof.
  split; [eexists; reflexivity |].
  destruct (verifySignature_total_fail_closed accept_all JsUndefined
              (JsString "c2lnbmF0dXJl") None (signing_public_key sample_subscriber))
    as [b [Hout [Hhash _]]].
  rewrite Hout. f_equal. exact (Hhash _ eq_refl).
Defined.


(** C4, as stated, fails: the unpadded spelling of the digest of the body [abc]
    decodes to exactly the computed digest bytes, and yet the verifier reports
    a digest mismatch, even with a provider that accepts the signature. *)
Lemma unpadded_digest_reported_as_mismatch :
  Base64.decode digest_abc_unpadded = Blake2b.blake2b512 (utf8_bytes "abc")
  /\ verifySignature accept_all (JsString "abc") (JsString "c2lnbmF0dXJl")
       (Some digest_abc_unpadded) (signing_public_key sample_subscriber)
     = ([digest_mismatch], Normal false).
Proof. split; vm_compute; reflexivity. Qed.

(** C4, amended.  The digest cross-check compares strings: a declared digest
    equal to the canonical base64 text of the computed digest is never
    reported as a mismatch and the verifier goes on exactly as without a
    declared digest; any other non-empty declared string is reported as a
    digest mismatch and the result is [false]. *)
Theorem digest_check_is_textual
    (crypto_verify : list byte -> KeyInput -> list byte -> Completion bool)
    (body sig : JsData) (d : string) (pk : JsData) (bs : list byte) :
  data_bytes body = Some bs ->
  (d = calculatedDigest bs ->
     ~ In digest_mismatch (logs (verifySignature crypto_verify body sig (Some d) pk))
     /\ verifySignature crypto_verify body sig (Some d) pk
        = verifySignature crypto_verify body sig None pk)
  /\ (d <> EmptyString -> d <> calculatedDigest bs ->
      verifySignature crypto_verify body sig (Some d) pk
      = ([digest_mismatch], Normal false)).
Proof.
  intros Hb. rewrite !verifySignature_cases, Hb. cbn [truthy default from_option id].
  split.
  - intros ->. rewrite String.eqb_refl, andb_false_r. cbn [negb andb].
    split; [| reflexivity].
    unfold logs.
    destruct (b64_buffer pk), (b64_buffer sig); cbn;
      try destruct (crypto_verify _ _ _); cbn; unfold digest_mismatch;
      intuition discriminate.
  - intros Hne Hd.
    apply String.eqb_neq in Hne, Hd. rewrite Hne, Hd. reflexivity.
Qed.

Lemma digest_check_is_textual_witness :
  data_bytes (JsString "abc") = Some (utf8_bytes "abc")
  /\ (digest_abc = calculatedDigest (utf8_bytes "abc") ->
      ~ In digest_mismatch
          (logs (verifySignature accept_raw32 (JsString "abc")
                   (JsString "c2lnbmF0dXJl") (Some digest_abc)
                   (signing_public_key sample_subscriber)))
      /\ verifySignature accept_raw32 (JsString "abc") (JsString "c2lnbmF0dXJl")
           (Some digest_abc) (signing_public_key sample_subscriber)
         = verifySignature accept_raw32 (JsString "abc") (JsString "c2lnbmF0dXJl")
             None (signing_public_key sample_subscriber)).
Proof.
  split; [reflexivity |].
  apply (digest_check_is_textual accept_raw32 (JsString "abc")
           (JsString "c2lnbmF0dXJl") digest_abc
           (signing_public_key sample_subscriber) (utf8_bytes "abc")).
  reflexivity.
Defined.

(** ** The key generator *)

Lemma generated_public_key_text (km : KeyMaterial) :
  publicKey (generateSigningKeyPair km)
  = Base64.encode (spki_der Ed25519 (public_bytes km)).
Proof.
  unfold generateSigningKeyPair, generateKeyPairSync. cbn [publicKey].
  now rewrite PemFacts.extract_pem by reflexivity.
Qed.

Lemma generated_public_key_decoded (km : KeyMaterial) :
  Base64.decode (publicKey (generateSigningKeyPair km))
  = spki_header Ed25519 ++ public_bytes km.
Proof. now rewrite generated_public_key_text, Base64Facts.decode_encode. Qed.

(** C2 (the code departs from it).  The public key string returned by
    [generateSigningKeyPair] decodes to the 12-byte SubjectPublicKeyInfo header
    followed by the key: only the PEM armour is removed, the DER envelope is
    kept, so a 32-byte Ed25519 key comes back as 44 bytes. *)
Theorem generated_public_key_keeps_der_envelope (km : KeyMaterial) :
  Base64.decode (publicKey (generateSigningKeyPair km))
  = spki_header Ed25519 ++ public_bytes km
  /\ length (Base64.decode (publicKey (generateSigningKeyPair km)))
     = (12 + length (public_bytes km))%nat.
Proof.
  rewrite generated_public_key_decoded. split; reflexivity.
Qed.

Example rfc8032_public_key_is_44_bytes :
  publicKey (generateSigningKeyPair sample_material)
  = "MCowBQYDK2VwAyEA11qYAYKxCrfVS/7TyWQHOg7hcvPapiMlrwIaaPcHURo="
  /\ length (Base64.decode (publicKey (generateSigningKeyPair sample_material))) = 44%nat.
Proof. split; vm_compute; reflexivity. Qed.

(** C1 (the code departs from it).  Whatever the payload, the signature and
    the declared digest, [verifySignature] answers [false] when given the public
    key string of a generated signing pair: the string decodes to 44 bytes, and
    no Ed25519 provider verifies under a raw key that is not 32 bytes long. *)
Theorem generated_key_never_verifies
    (crypto_verify : list byte -> KeyInput -> list byte -> Completion bool)
    (km : KeyMaterial) (body sig : JsData) (d : option string) :
  (forall m k s, length (key k) <> 32%nat -> crypto_verify m k s <> Normal true) ->
  length (public_bytes km) = 32%nat ->
  outcome (verifySignature crypto_verify body sig d
             (JsString (publicKey (generateSigningKeyPair km))))
  = Normal false.
Proof.
  intros Hraw Hlen.
  destruct (verifySignature_answers crypto_verify body sig d
              (JsString (publicKey (generateSigningKeyPair km))))
    as [b [Hout Htrue]].
  rewrite Hout. destruct b; [| reflexivity].
  destruct (Htrue eq_refl) as (bs & pkb & sigb & _ & Hpk & _ & Hv).
  assert (pkb = Base64.decode (publicKey (generateSigningKeyPair km))) as ->
    by (unfold b64_buffer in Hpk; congruence).
  exfalso. apply (Hraw _ _ _) in Hv; [exact Hv |].
  change (length (Base64.decode (publicKey (generateSigningKeyPair km))) <> 32%nat).
  rewrite generated_public_key_decoded. cbn [spki_header length app]. lia.
Qed.

Lemma generated_key_never_verifies_witness :
  (forall m k s, length (key k) <> 32%nat -> accept_raw32 m k s <> Normal true)
  /\ length (public_bytes sample_material) = 32%nat
  /\ outcome (verifySignature accept_raw32 (JsString "abc") (JsString "c2lnbmF0dXJl")
                None (JsString (publicKey (generateSigningKeyPair sample_material))))
     = Normal false.
Proof.
  assert (H : forall m k s, length (key k) <> 32%nat -> accept_raw32 m k s <> Normal true).
  { intros m k s Hk. unfold accept_raw32.
    destruct (Nat.eqb_spec (length (key k)) 32); [contradiction | discriminate]. }
  split; [exact H |]. split; [reflexivity |].
  apply (generated_key_never_verifies accept_raw32 sample_material
           (JsString "abc") (JsString "c2lnbmF0dXJl") None H).
  reflexivity.
Defined.

(** ** The header parser *)

Lemma starts_with_iff (p s : string) :
  starts_with p s = true <-> exists rest, s = p +:+ rest.
Proof.
  revert s. induction p as [| a p IH]; intros s.
  - split; [intros _; now exists s | reflexivity].
  - destruct s as [| b s].
    + split; [discriminate | intros [rest H]; discriminate H].
    + cbn [starts_with]. rewrite andb_true_iff, IH. split.
      * intros [Hab [rest ->]]. apply Ascii.eqb_eq in Hab as ->. now exists rest.
      * intros [rest H]. rewrite PemFacts.append_cons in H.
        injection H as -> ->. split; [apply Ascii.eqb_refl | now exists rest].
Qed.

(** The object built by the matching loop holds, for every name, the value of
    its last occurrence. *)
Lemma foldl_assign_lookup (l : list (string * string)) (m : gmap string string)
    (k : string) :
  k <> "__proto__" ->
  foldl assign m l !! k
  = match last_value k l with Some v => Some v | None => m !! k end.
Proof.
  intros Hk. revert m. induction l as [| [k' v] l IH]; intros m; [reflexivity |].
  cbn [foldl last_value]. rewrite IH.
  destruct (last_value k l); [reflexivity |].
  unfold assign. cbn [fst snd].
  destruct (String.eqb_spec k' "__proto__") as [-> | Hp].
  - destruct (String.eqb_spec "__proto__" k) as [E | _]; [| reflexivity].
    now elim Hk.
  - destruct (String.eqb_spec k' k) as [-> | Hne].
    + apply lookup_insert_eq.
    + now apply lookup_insert_ne.
Qed.

Lemma foldl_assign_proto (l : list (string * string)) (m : gmap string string) :
  foldl assign m l !! "__proto__" = m !! "__proto__".
Proof.
  revert m. induction l as [| [k' v] l IH]; intros m; [reflexivity |].
  cbn [foldl]. rewrite IH. unfold assign. cbn [fst snd].
  destruct (String.eqb_spec k' "__proto__") as [-> | Hp]; [reflexivity |].
  now apply lookup_insert_ne.
Qed.

Lemma parse_components_lookup (h k : string) :
  k <> "__proto__" ->
  parse_components (string_drop 10 h) !! k = last_value k (attributes h).
Proof.
  intros Hk. unfold parse_components, attributes.
  rewrite foldl_assign_lookup by exact Hk.
  destruct (last_value _ _); [reflexivity | apply lookup_empty].
Qed.

Lemma last_value_none (k : string) (l : list (string * string)) :
  ~ In k (map fst l) -> last_value k l = None.
Proof.
  induction l as [| [k' v] l IH]; [reflexivity |].
  cbn [map fst In last_value]. intros H.
  rewrite IH by tauto.
  destruct (String.eqb_spec k' k); [tauto | reflexivity].
Qed.

Lemma last_value_last (k v : string) (l1 l2 : list (string * string)) :
  ~ In k (map fst l2) -> last_value k (l1 ++ (k, v) :: l2) = Some v.
Proof.
  intros H. induction l1 as [| [k' v'] l1 IH].
  - cbn [app last_value]. rewrite (last_value_none k l2 H).
    now rewrite String.eqb_refl.
  - cbn [app last_value]. now rewrite IH.
Qed.

Lemma split_on_length (sep : ascii) (s : string) :
  length (split_on sep s) = S (count_char sep s).
Proof.
  induction s as [| c s IH]; [reflexivity |].
  cbn [split_on count_char]. destruct (Ascii.eqb c sep).
  - cbn [length]. now rewrite IH.
  - destruct (split_on sep s) as [| seg segs]; [discriminate IH |].
    cbn [length] in *. lia.
Qed.

(** The parser as a function of the attributes it read. *)
Lemma parseAuthHeader_cases (h : string) :
  parseAuthHeader h =
  ([], Normal
         (if negb (starts_with "Signature " h) then None
          else if negb (truthy (last_value "keyId" (attributes h)))
                  || negb (truthy (last_value "signature" (attributes h)))
                  || negb (truthy (last_value "algorithm" (attributes h)))
          then None
          else
            match split_on "|" (default EmptyString (last_value "keyId" (attributes h))) with
            | [subscriberId; ukId; keyAlgorithm] =>
                Some {| subscriberId := subscriberId;
                        ukId := ukId;
                        algorithm := default EmptyString (last_value "algorithm" (attributes h));
                        signature := default EmptyString (last_value "signature" (attributes h));
                        digest := if truthy (last_value "digest" (attributes h))
                                  then last_value "digest" (attributes h) else None;
                        created := last_value "created" (attributes h);
                        expires := last_value "expires" (attributes h) |}
            | _ => None
            end)).
Proof.
  unfold parseAuthHeader. rewrite !parse_components_lookup by discriminate.
  destruct (negb (starts_with "Signature " h)); [reflexivity |].
  destruct (negb _ || _ || _); [reflexivity |].
  destruct (split_on "|" _) as [| a [| b [| c [| x y]]]]; reflexivity.
Qed.

(** C6.  On every input string the parser completes normally (it never throws
    and logs nothing), and its result is the absent value when the string
    does not start with the prefix [Signature ] (with its trailing space),
    when no attribute named [keyId], [signature] or [algorithm] was read, or
    when the [keyId] value does not split on the bar into exactly three
    segments (that is, does not contain exactly two bars). *)
Theorem parseAuthHeader_malformed (h : string) :
  exists r : option SignatureParams,
    parseAuthHeader h = ([], Normal r)
    /\ (starts_with "Signature " h = false -> r = None)
    /\ (forall k, In k ["keyId"; "signature"; "algorithm"] ->
                  ~ In k (map fst (attributes h)) -> r = None)
    /\ (forall v, last_value "keyId" (attributes h) = Some v ->
                  length (split_on "|" v) <> 3%nat -> r = None)
    /\ (forall v, last_value "keyId" (attributes h) = Some v ->
                  count_char "|" v <> 2%nat -> r = None).
Proof.
  eexists. split; [apply parseAuthHeader_cases |].
  assert (Hsplit : forall v, last_value "keyId" (attributes h) = Some v ->
                   length (split_on "|" v) <> 3%nat ->
                   (if negb (starts_with "Signature " h) then None
                    else if negb (truthy (last_value "keyId" (attributes h)))
                            || negb (truthy (last_value "signature" (attributes h)))
                            || negb (truthy (last_value "algorithm" (attributes h)))
                    then None
                    else
                      match split_on "|" (default EmptyString (last_value "keyId" (attributes h))) with
                      | [subscriberId; ukId; keyAlgorithm] =>
                          Some {| subscriberId := subscriberId;
                                  ukId := ukId;
                                  algorithm := default EmptyString (last_value "algorithm" (attributes h));
                                  signature := default EmptyString (last_value "signature" (attributes h));
                                  digest := if truthy (last_value "digest" (attributes h))
                                            then last_value "digest" (attributes h) else None;
                                  created := last_value "created" (attributes h);
                                  expires := last_value "expires" (attributes h) |}
                      | _ => None
                      end) = None).
  { intros v Hv Hlen. rewrite Hv. cbn [default from_option id].
    destruct (negb (starts_with _ _)); [reflexivity |].
    destruct (negb _ || _ || _); [reflexivity |].
    destruct (split_on "|" v) as [| a [| b [| c [| x y]]]]; try reflexivity.
    now elim Hlen. }
  split; [| split; [| split]].
  - intros ->. reflexivity.
  - intros k Hk Hmiss. apply last_value_none in Hmiss.
    destruct (negb (starts_with _ _)); [reflexivity |].
    cbn [In] in Hk.
    destruct Hk as [<- | [<- | [<- | []]]]; rewrite Hmiss; cbn [truthy negb orb];
      rewrite ?orb_true_r; reflexivity.
  - exact Hsplit.
  - intros v Hv Hcount. apply (Hsplit v Hv).
    rewrite split_on_length. lia.
Qed.

Lemma parseAuthHeader_malformed_witness :
  starts_with "Signature " "Bearer c2lnbmF0dXJl" = false
  /\ parseAuthHeader "Bearer c2lnbmF0dXJl" = ([], Normal None).
Proof.
  split; [reflexivity |].
  destruct (parseAuthHeader_malformed "Bearer c2lnbmF0dXJl") as [r [Hr [Hprefix _]]].
  rewrite Hr. now rewrite (Hprefix eq_refl).
Defined.


(** C10, as stated, fails: in this header [signature] appears with an empty
    quoted value and the parser still returns a structure, because a later
    occurrence of the same attribute replaces the empty one. *)
Lemma empty_then_repeated_signature_parses :
  In ("signature", EmptyString) (attributes header_signature_twice)
  /\ outcome (parseAuthHeader header_signature_twice)
     = Normal (Some {| subscriberId := "buyer.example";
                       ukId := "k1";
                       algorithm := "ed25519";
                       signature := "c2lnbmF0dXJl";
                       digest := None;
                       created := None;
                       expires := None |}).
Proof. split; vm_compute; auto. Qed.

(** C10, amended.  For every header string in which the last occurrence of a
    required attribute ([keyId], [signature] or [algorithm]) has an empty
    quoted value, the parser returns the absent value: the presence check
    treats an empty recorded value like a missing attribute. *)
Theorem empty_required_attribute_malformed (h k : string)
    (before after : list (string * string)) :
  In k ["keyId"; "signature"; "algorithm"] ->
  attributes h = before ++ (k, EmptyString) :: after ->
  ~ In k (map fst after) ->
  parseAuthHeader h = ([], Normal None).
Proof.
  intros Hk Hattrs Hlast. rewrite parseAuthHeader_cases.
  pose proof (last_value_last k EmptyString before after Hlast) as Hv.
  rewrite <- Hattrs in Hv.
  destruct (negb (starts_with _ _)); [reflexivity |].
  cbn [In] in Hk.
  destruct Hk as [<- | [<- | [<- | []]]]; rewrite Hv; cbn [truthy negb orb];
    rewrite ?orb_true_r; reflexivity.
Qed.

Lemma empty_required_attribute_malformed_witness :
  In "signature" ["keyId"; "signature"; "algorithm"]
  /\ attributes header_signature_empty
     = [("keyId", "buyer.example|k1|ed25519"); ("algorithm", "ed25519")]
       ++ ("signature", EmptyString) :: []
  /\ ~ In "signature" (map fst (@nil (string * string)))
  /\ parseAuthHeader header_signature_empty = ([], Normal None).
Proof.
  assert (H1 : In "signature" ["keyId"; "signature"; "algorithm"])
    by (right; left; reflexivity).
  assert (H2 : attributes header_signature_empty
               = [("keyId", "buyer.example|k1|ed25519"); ("algorithm", "ed25519")]
                 ++ ("signature", EmptyString) :: [])
    by (vm_compute; reflexivity).
  assert (H3 : ~ In "signature" (map fst (@nil (string * string))))
    by (intros []).
  split; [exact H1 |]. split; [exact H2 |]. split; [exact H3 |].
  exact (empty_required_attribute_malformed header_signature_empty "signature"
           _ _ H1 H2 H3).
Defined.

(** ** The gate *)

Lemma parseAuthHeader_returns (h : string) :
  exists r, parseAuthHeader h = ([], Normal r).
Proof. eexists. apply parseAuthHeader_cases. Qed.

Lemma parsed_header_nonempty (h : string) (c : SignatureParams) :
  outcome (parseAuthHeader h) = Normal (Some c) -> truthy (Some h) = true.
Proof.
  rewrite parseAuthHeader_cases. unfold outcome. cbn [snd].
  destruct h as [| x h]; [discriminate | reflexivity].
Qed.

Lemma parsed_digest_nonempty (h : string) (c : SignatureParams) (d : string) :
  outcome (parseAuthHeader h) = Normal (Some c) ->
  digest c = Some d -> d <> EmptyString.
Proof.
  rewrite parseAuthHeader_cases. unfold outcome. cbn [snd].
  destruct (negb (starts_with _ _)); [discriminate |].
  destruct (negb _ || _ || _); [discriminate |].
  destruct (split_on "|" _) as [| a [| b [| k [| x y]]]]; try discriminate.
  intros [= <-]. cbn [digest].
  destruct (last_value "digest" (attributes h)) as [v |]; cbn [truthy]; [| discriminate].
  destruct (String.eqb_spec v EmptyString); cbn [negb]; congruence.
Qed.

(** The gate as a decision tree. *)
Lemma gate_cases
    (crypto_verify : list byte -> KeyInput -> list byte -> Completion bool)
    (lookupSubscriber : string -> string -> Completion (option Subscriber))
    (req : Request) :
  verifyAuthentication crypto_verify lookupSubscriber req =
  if bypass (path req) then ([], Normal (Next None))
  else if negb (truthy (authorization req))
  then ([mkLog LWarn "Missing authorization header"],
        Normal (Respond (nack 401 "401" "Missing authorization header")))
  else
    match outcome (parseAuthHeader (default EmptyString (authorization req))) with
    | Normal (Some c) =>
        match lookupSubscriber (subscriberId c) (ukId c) with
        | Normal (Some sub) =>
            let v := verifySignature crypto_verify (rawBody req)
                       (JsString (signature c)) (digest c) (signing_public_key sub) in
            match outcome v with
            | Normal true => (logs v, Normal (Next (Some sub)))
            | _ => (logs v ++ [mkLog LWarn "Signature verification failed"],
                    Normal (Respond (nack 401 "401" "Signature verification failed")))
            end
        | Normal None =>
            ([mkLog LWarn "Could not find subscriber in registry"],
             Normal (Respond (nack 401 "401" "Subscriber not found")))
        | Throw (ApiError m st) =>
            ([], Normal (Respond (nack st (String_of_status st) m)))
        | Throw (OtherError _ _) =>
            ([mkLog LError "Authentication error"],
             Normal (Respond (nack 401 "401" "Authentication failed")))
        end
    | _ =>
        ([mkLog LWarn "Invalid authorization header format"],
         Normal (Respond (nack 401 "401" "Invalid authorization header format")))
    end.
Proof.
  unfold verifyAuthentication, bypass.
  destruct (String.eqb (path req) "/health" || starts_with "/internal/" (path req));
    [reflexivity |].
  destruct (negb (truthy (authorization req))); [reflexivity |].
  destruct (parseAuthHeader_returns (default EmptyString (authorization req)))
    as [r ->].
  destruct r as [c |]; [| reflexivity].
  eff_unfold. cbn.
  destruct (lookupSubscriber (subscriberId c) (ukId c)) as [[sub |] | [m st | n m]];
    try reflexivity.
  destruct (verifySignature_answers crypto_verify (rawBody req)
              (JsString (signature c)) (digest c) (signing_public_key sub))
    as [b [Hb _]].
  destruct (verifySignature crypto_verify (rawBody req) (JsString (signature c))
              (digest c) (signing_public_key sub)) as [l o].
  unfold outcome in Hb. cbn [snd] in Hb. subst o.
  destruct b; cbn; rewrite ?app_nil_r; reflexivity.
Qed.

Lemma bypass_iff (p : string) :
  bypass p = true <-> p = "/health" \/ exists rest, p = "/internal/" +:+ rest.
Proof.
  unfold bypass. rewrite orb_true_iff, String.eqb_eq, starts_with_iff. tauto.
Qed.

(** C7.  The gate skips verification exactly for the paths equal to [/health]
    or starting with [/internal/]: such a request proceeds at once, whatever
    its headers; on every other path a request without an authorization header
    is answered with status 401 and the message [Missing authorization header],
    and a request is only passed on after its header was parsed, its
    subscriber found and its signature verified. *)
Theorem gate_bypass_and_missing_header
    (crypto_verify : list byte -> KeyInput -> list byte -> Completion bool)
    (lookupSubscriber : string -> string -> Completion (option Subscriber))
    (req : Request) :
  (path req = "/health" \/ (exists rest, path req = "/internal/" +:+ rest) ->
   verifyAuthentication crypto_verify lookupSubscriber req = ([], Normal (Next None)))
  /\ (path req <> "/health" ->
      (forall rest, path req <> "/internal/" +:+ rest) ->
      (truthy (authorization req) = false ->
       verifyAuthentication crypto_verify lookupSubscriber req
       = ([mkLog LWarn "Missing authorization header"],
          Normal (Respond (nack 401 "401" "Missing authorization header"))))
      /\ (forall a,
            outcome (verifyAuthentication crypto_verify lookupSubscriber req)
            = Normal (Next a) ->
            exists c sub,
              a = Some sub
              /\ outcome (parseAuthHeader (default EmptyString (authorization req)))
                 = Normal (Some c)
              /\ lookupSubscriber (subscriberId c) (ukId c) = Normal (Some sub)
              /\ outcome (verifySignature crypto_verify (rawBody req)
                            (JsString (signature c)) (digest c)
                            (signing_public_key sub))
                 = Normal true)).
Proof.
  rewrite gate_cases. split.
  - intros H. apply bypass_iff in H. now rewrite H.
  - intros Hh Hi.
    assert (Hb : bypass (path req) = false).
    { destruct (bypass (path req)) eqn:E; [| reflexivity].
      apply bypass_iff in E as [E | [rest E]]; [contradiction | now elim (Hi rest)]. }
    rewrite Hb. split.
    + intros ->. reflexivity.
    + intros a. destruct (negb (truthy (authorization req))); [discriminate |].
      destruct (outcome (parseAuthHeader _)) as [[c |] | e] eqn:Hp; try discriminate.
      destruct (lookupSubscriber _ _) as [[sub |] | [m st | n m]] eqn:Hl;
        try discriminate.
      cbv zeta.
      destruct (outcome (verifySignature _ _ _ _ _)) as [[|] | e] eqn:Hv;
        try discriminate.
      unfold outcome at 1. cbn [snd]. intros [= <-].
      exists c, sub. auto.
Qed.

Lemma gate_bypass_and_missing_header_witness :
  path request_no_header <> "/health"
  /\ (forall rest, path request_no_header <> "/internal/" +:+ rest)
  /\ truthy (authorization request_no_header) = false
  /\ verifyAuthentication reject_all registry_with_sample request_no_header
     = ([mkLog LWarn "Missing authorization header"],
        Normal (Respond (nack 401 "401" "Missing authorization header"))).
Proof.
  assert (H1 : path request_no_header <> "/health") by discriminate.
  assert (H2 : forall rest, path request_no_header <> "/internal/" +:+ rest).
  { intros rest H. apply (f_equal (starts_with "/internal/")) in H.
    rewrite (proj2 (starts_with_iff "/internal/" ("/internal/" +:+ rest))) in H
      by (now exists rest).
    discriminate H. }
  assert (H3 : truthy (authorization request_no_header) = false) by reflexivity.
  split; [exact H1 |]. split; [exact H2 |]. split; [exact H3 |].
  exact (proj1 (proj2 (gate_bypass_and_missing_header reject_all registry_with_sample
                         request_no_header) H1 H2) H3).
Defined.


(** C8, as stated, fails: when the resolver throws, the gate does not answer as
    for a subscriber that was not found.  An [ApiError] thrown by the resolver
    is answered with that error's own status (here 503), and any other error
    with the generic message [Authentication failed]; only an absent result
    gives [Subscriber not found]. *)
Lemma resolver_error_not_treated_as_not_found :
  outcome (verifyAuthentication reject_all registry_empty request_plain)
  = Normal (Respond (nack 401 "401" "Subscriber not found"))
  /\ outcome (verifyAuthentication reject_all registry_unavailable request_plain)
     = Normal (Respond (nack 503 "503" "Registry unavailable"))
  /\ verifyAuthentication reject_all registry_timeout request_plain
     = ([mkLog LError "Authentication error"],
        Normal (Respond (nack 401 "401" "Authentication failed"))).
Proof. split; [| split]; vm_compute; reflexivity. Qed.

(** C8, amended.  For a request on a gated path whose header parses: when the
    resolver returns an absent result the gate rejects with status 401 and the
    message [Subscriber not found]; when the resolver throws an error that is
    not an [ApiError] the gate also fails closed with status 401, but as a
    generic [Authentication failed] logged at error level; when the resolver
    throws an [ApiError] the gate answers with that error's status and
    message. *)
Theorem gate_resolver_outcomes
    (crypto_verify : list byte -> KeyInput -> list byte -> Completion bool)
    (lookupSubscriber : string -> string -> Completion (option Subscriber))
    (req : Request) (h : string) (c : SignatureParams) :
  bypass (path req) = false ->
  authorization req = Some h ->
  outcome (parseAuthHeader h) = Normal (Some c) ->
  (lookupSubscriber (subscriberId c) (ukId c) = Normal None ->
   verifyAuthentication crypto_verify lookupSubscriber req
   = ([mkLog LWarn "Could not find subscriber in registry"],
      Normal (Respond (nack 401 "401" "Subscriber not found"))))
  /\ (forall n m,
        lookupSubscriber (subscriberId c) (ukId c) = Throw (OtherError n m) ->
        verifyAuthentication crypto_verify lookupSubscriber req
        = ([mkLog LError "Authentication error"],
           Normal (Respond (nack 401 "401" "Authentication failed"))))
  /\ (forall m st,
        lookupSubscriber (subscriberId c) (ukId c) = Throw (ApiError m st) ->
        verifyAuthentication crypto_verify lookupSubscriber req
        = ([], Normal (Respond (nack st (String_of_status st) m)))).
Proof.
  intros Hb Hh Hp. rewrite gate_cases, Hb, Hh.
  rewrite (parsed_header_nonempty h c Hp). cbn [negb default from_option id].
  rewrite Hp.
  split; [| split].
  - intros ->. reflexivity.
  - intros n m ->. reflexivity.
  - intros m st ->. reflexivity.
Qed.

Lemma gate_resolver_outcomes_witness :
  bypass (path request_plain) = false
  /\ authorization request_plain = Some header_plain
  /\ outcome (parseAuthHeader header_plain)
     = Normal (Some {| subscriberId := "buyer.example";
                       ukId := "k1";
                       algorithm := "ed25519";
                       signature := "c2lnbmF0dXJl";
                       digest := None;
                       created := Some "1700000000";
                       expires := Some "1700000300" |})
  /\ (registry_empty "buyer.example" "k1" = Normal None ->
      verifyAuthentication reject_all registry_empty request_plain
      = ([mkLog LWarn "Could not find subscriber in registry"],
         Normal (Respond (nack 401 "401" "Subscriber not found")))).
Proof.
  assert (H1 : bypass (path request_plain) = false) by reflexivity.
  assert (H2 : authorization request_plain = Some header_plain) by reflexivity.
  assert (H3 : outcome (parseAuthHeader header_plain)
               = Normal (Some {| subscriberId := "buyer.example";
                                 ukId := "k1";
                                 algorithm := "ed25519";
                                 signature := "c2lnbmF0dXJl";
                                 digest := None;
                                 created := Some "1700000000";
                                 expires := Some "1700000300" |}))
    by (vm_compute; reflexivity).
  split; [exact H1 |]. split; [exact H2 |]. split; [exact H3 |].
  exact (proj1 (gate_resolver_outcomes reject_all registry_empty request_plain
                  header_plain _ H1 H2 H3)).
Defined.

(** C3, as stated, fails: a request whose declared digest differs from the
    computed one is rejected with exactly the response of a signature failure;
    the verifier answers the same [false] in both cases and the gate has no
    separate digest-mismatch outcome. *)
Lemma digest_mismatch_answered_as_signature_failure :
  (exists c, outcome (parseAuthHeader header_wrong_digest) = Normal (Some c)
             /\ digest c = Some "AAAA")
  /\ "AAAA" <> calculatedDigest (utf8_bytes "abc")
  /\ Base64.decode "AAAA" <> Blake2b.blake2b512 (utf8_bytes "abc")
  /\ outcome (verifyAuthentication reject_all registry_with_sample request_wrong_digest)
     = Normal (Respond (nack 401 "401" "Signature verification failed"))
  /\ outcome (verifyAuthentication reject_all registry_with_sample request_wrong_digest)
     = outcome (verifyAuthentication reject_all registry_with_sample request_plain)
  /\ outcome (verifySignature reject_all (JsString "abc") (JsString "c2lnbmF0dXJl")
                (Some "AAAA") (signing_public_key sample_subscriber))
     = outcome (verifySignature reject_all (JsString "abc") (JsString "c2lnbmF0dXJl")
                  None (signing_public_key sample_subscriber)).
Proof.
  split.
  { eexists. split; vm_compute; reflexivity. }
  split; [vm_compute; discriminate |].
  split; [vm_compute; discriminate |].
  split; [vm_compute; reflexivity |].
  split; vm_compute; reflexivity.
Qed.

(** C3, amended.  For every request on a gated path whose authorization
    header parses, whose subscriber the registry returns and whose body is a
    string or a buffer: if the digest field returned by the parser is present
    and differs, as a string, from the base64 digest computed over the raw
    body, then the verifier logs a digest mismatch as a warning and returns
    [false], and the gate rejects with status 401 and the message
    [Signature verification failed], the same rejection as for an invalid
    signature. *)
Theorem digest_mismatch_rejected
    (crypto_verify : list byte -> KeyInput -> list byte -> Completion bool)
    (lookupSubscriber : string -> string -> Completion (option Subscriber))
    (req : Request) (h : string) (c : SignatureParams) (sub : Subscriber)
    (d : string) (bs : list byte) :
  bypass (path req) = false ->
  authorization req = Some h ->
  outcome (parseAuthHeader h) = Normal (Some c) ->
  lookupSubscriber (subscriberId c) (ukId c) = Normal (Some sub) ->
  digest c = Some d ->
  data_bytes (rawBody req) = Some bs ->
  d <> calculatedDigest bs ->
  verifySignature crypto_verify (rawBody req) (JsString (signature c)) (digest c)
    (signing_public_key sub)
  = ([digest_mismatch], Normal false)
  /\ verifyAuthentication crypto_verify lookupSubscriber req
     = ([digest_mismatch; mkLog LWarn "Signature verification failed"],
        Normal (Respond (nack 401 "401" "Signature verification failed"))).
Proof.
  intros Hb Hh Hp Hl Hd Hbody Hne.
  assert (Hv : verifySignature crypto_verify (rawBody req) (JsString (signature c))
                 (digest c) (signing_public_key sub)
               = ([digest_mismatch], Normal false)).
  { rewrite verifySignature_cases, Hbody, Hd. cbn [truthy default from_option id].
    pose proof (parsed_digest_nonempty h c d Hp Hd) as Hd0.
    apply String.eqb_neq in Hd0, Hne. now rewrite Hd0, Hne. }
  split; [exact Hv |].
  rewrite gate_cases, Hb, Hh.
  rewrite (parsed_header_nonempty h c Hp). cbn [negb default from_option id].
  rewrite Hp, Hl. cbv zeta. rewrite Hv. reflexivity.
Qed.

Lemma digest_mismatch_rejected_witness :
  verifySignature accept_all (rawBody request_wrong_digest) (JsString "c2lnbmF0dXJl")
    (Some "AAAA") (signing_public_key sample_subscriber)
  = ([digest_mismatch], Normal false)
  /\ verifyAuthentication accept_all registry_with_sample request_wrong_digest
     = ([digest_mismatch; mkLog LWarn "Signature verification failed"],
        Normal (Respond (nack 401 "401" "Signature verification failed"))).
Proof.
  apply (digest_mismatch_rejected accept_all registry_with_sample
           request_wrong_digest header_wrong_digest
           {| subscriberId := "buyer.example";
              ukId := "k1";
              algorithm := "ed25519";
              signature := "c2lnbmF0dXJl";
              digest := Some "AAAA";
              created := Some "1700000000";
              expires := Some "1700000300" |}
           sample_subscriber "AAAA" (utf8_bytes "abc")).
  - reflexivity.
  - reflexivity.
  - vm_compute. reflexivity.
  - reflexivity.
  - reflexivity.
  - reflexivity.
  - vm_compute. discriminate.
Defined.

(** ** The key loader *)

Section LoaderFacts.

Variable path_join : string -> string -> string.
Variable trim : string -> string.
Variable env : gmap string string.
Variable fs : gmap string FsEntry.

Lemma load_file_readable (p : string) (set : string -> Keys -> Keys) (keys : Keys) :
  (forall e, fs !! p <> Some (FsUnreadable e)) ->
  load_file trim fs p set keys
  = (match fs !! p with
     | Some (FsFile c) => set (trim c) keys
     | _ => keys
     end, Normal tt).
Proof.
  intros H. unfold load_file, existsSync, readFileSync.
  destruct (fs !! p) as [[c | e] |]; try reflexivity.
  now elim (H e).
Qed.

Lemma load_file_unreadable (p : string) (set : string -> Keys -> Keys) (keys : Keys)
    (e : JsError) :
  fs !! p = Some (FsUnreadable e) ->
  load_file trim fs p set keys = (keys, Throw e).
Proof.
  intros H. unfold load_file, existsSync, readFileSync. now rewrite H.
Qed.

End LoaderFacts.

(** C9, as stated, fails.  With the signing private key set in the
    environment, an existing public key file is not read although the
    variable of the public key is unset; and without the signing private
    variable, an existing file takes precedence over the variable that is
    set. *)
Lemma loadKeys_not_independent_per_key :
  (env_private_only !! "ONDC_SIGNING_PUBLIC_KEY" = None
   /\ fs_public_file !! join_with_slash "./keys" "signing_public_key.b64"
      = Some (FsFile "ZmlsZQ==")
   /\ signingPublicKey
        (fst (loadKeys join_with_slash trim_ascii env_private_only fs_public_file))
      = None)
  /\ (env_public_only !! "ONDC_SIGNING_PUBLIC_KEY" = Some "ZW52"
      /\ signingPublicKey
           (fst (loadKeys join_with_slash trim_ascii env_public_only fs_public_file))
         = Some "ZmlsZQ==").
Proof.
  split; [split; [| split] | split]; vm_compute; reflexivity.
Qed.

(** C9, amended.  [loadKeys] first takes all four values from the environment
    variables.  When the signing private variable is set and not empty, that
    is the result and no file is read.  Otherwise the key files are consulted
    and, for each of the four artifacts independently, the result is the
    trimmed text of its file when the file exists, otherwise the value of its
    variable, possibly absent.  Any subset may be missing; the loader returns
    what it found. *)
Theorem loadKeys_sources
    (path_join : string -> string -> string) (trim : string -> string)
    (env : gmap string string) (fs : gmap string FsEntry) :
  (truthy (env !! "ONDC_SIGNING_PRIVATE_KEY") = true ->
   loadKeys path_join trim env fs
   = ({| signingPublicKey := env !! "ONDC_SIGNING_PUBLIC_KEY";
         signingPrivateKey := env !! "ONDC_SIGNING_PRIVATE_KEY";
         encryptionPublicKey := env !! "ONDC_ENCRYPTION_PUBLIC_KEY";
         encryptionPrivateKey := env !! "ONDC_ENCRYPTION_PRIVATE_KEY" |}, []))
  /\ (truthy (env !! "ONDC_SIGNING_PRIVATE_KEY") = false ->
      (forall name e,
         In name ["signing_private_key.b64"; "signing_public_key.b64";
                  "encryption_private_key.b64"; "encryption_public_key.b64"] ->
         fs !! path_join (keys_dir env) name <> Some (FsUnreadable e)) ->
      loadKeys path_join trim env fs
      = ({| signingPublicKey :=
              file_or_env path_join trim env fs
                "signing_public_key.b64" "ONDC_SIGNING_PUBLIC_KEY";
            signingPrivateKey :=
              file_or_env path_join trim env fs
                "signing_private_key.b64" "ONDC_SIGNING_PRIVATE_KEY";
            encryptionPublicKey :=
              file_or_env path_join trim env fs
                "encryption_public_key.b64" "ONDC_ENCRYPTION_PUBLIC_KEY";
            encryptionPrivateKey :=
              file_or_env path_join trim env fs
                "encryption_private_key.b64" "ONDC_ENCRYPTION_PRIVATE_KEY" |}, [])).
Proof.
  unfold loadKeys. cbn [signingPrivateKey]. split.
  - intros ->. reflexivity.
  - intros -> Hread. cbn [negb]. fold (keys_dir env).
    rewrite load_file_readable by (intros e; apply Hread; cbn; tauto).
    unfold and_then.
    rewrite load_file_readable by (intros e; apply Hread; cbn; tauto).
    rewrite load_file_readable by (intros e; apply Hread; cbn; tauto).
    rewrite load_file_readable by (intros e; apply Hread; cbn; tauto).
    unfold file_or_env.
    destruct (fs !! path_join (keys_dir env) "signing_private_key.b64") as [[? | ?] |];
      destruct (fs !! path_join (keys_dir env) "signing_public_key.b64") as [[? | ?] |];
      destruct (fs !! path_join (keys_dir env) "encryption_private_key.b64") as [[? | ?] |];
      destruct (fs !! path_join (keys_dir env) "encryption_public_key.b64") as [[? | ?] |];
      reflexivity.
Qed.

Lemma loadKeys_sources_witness :
  truthy (env_private_only !! "ONDC_SIGNING_PRIVATE_KEY") = true
  /\ loadKeys join_with_slash trim_ascii env_private_only fs_public_file
     = ({| signingPublicKey := env_private_only !! "ONDC_SIGNING_PUBLIC_KEY";
           signingPrivateKey := env_private_only !! "ONDC_SIGNING_PRIVATE_KEY";
           encryptionPublicKey := env_private_only !! "ONDC_ENCRYPTION_PUBLIC_KEY";
           encryptionPrivateKey := env_private_only !! "ONDC_ENCRYPTION_PRIVATE_KEY" |},
        []).
Proof.
  assert (H : truthy (env_private_only !! "ONDC_SIGNING_PRIVATE_KEY") = true)
    by (vm_compute; reflexivity).
  split; [exact H |].
  exact (proj1 (loadKeys_sources join_with_slash trim_ascii env_private_only
                  fs_public_file) H).
Defined.

(** * Further properties of the three modules *)

(** ** Hashing and the verifier *)

Lemma compress_length (h m : list Z) (t : Z) (last : bool) :
  length (Blake2b.compress h m t last) = 8%nat.
Proof. unfold Blake2b.compress. now rewrite List.length_map, List.length_seq. Qed.

Lemma absorb_length (data : list byte) :
  forall (h : list Z) (t : Z) (buf : list byte),
    length (Blake2b.absorb h t buf data) = 8%nat.
Proof.
  induction data as [| b r IH]; intros h t buf; cbn [Blake2b.absorb].
  - apply compress_length.
  - destruct (length buf =? 128)%nat; apply IH.
Qed.

Lemma flat_map_le_bytes_length (ws : list Z) :
  length (flat_map Blake2b.le_bytes ws) = (8 * length ws)%nat.
Proof.
  induction ws as [| w ws IH]; [reflexivity |].
  cbn [flat_map]. rewrite List.length_app, IH.
  unfold Blake2b.le_bytes. rewrite List.length_map, List.length_seq.
  cbn [length]. lia.
Qed.

Lemma blake2b512_length (data : list byte) :
  length (Blake2b.blake2b512 data) = 64%nat.
Proof.
  unfold Blake2b.blake2b512.
  now rewrite flat_map_le_bytes_length, absorb_length.
Qed.

Lemma encode_length (bs : list byte) :
  String.length (Base64.encode bs) = (4 * ((length bs + 2) / 3))%nat.
Proof.
  induction bs as [| a | a b | a b c r IH] using Base64Facts.list_ind3;
    try reflexivity.
  change (Base64.encode (a :: b :: c :: r))
    with (String (Base64.b64char (Byte.to_N a / 4))
            (String (Base64.b64char ((Byte.to_N a mod 4) * 16 + Byte.to_N b / 16))
               (String (Base64.b64char ((Byte.to_N b mod 16) * 4 + Byte.to_N c / 64))
                  (String (Base64.b64char (Byte.to_N c mod 64)) (Base64.encode r))))).
  cbn [String.length length]. rewrite IH.
  replace (S (S (S (length r))) + 2)%nat with (length r + 2 + 1 * 3)%nat by lia.
  rewrite Nat.div_add by lia. lia.
Qed.

(** X1.  For every body that is a string or a buffer, [generateBlake2bHash]
    completes normally, logs nothing, and returns exactly 64 bytes; the digest
    string computed from them always has 88 characters. *)
Theorem generateBlake2bHash_digest_size (data : JsData) (bs : list byte) :
  data_bytes data = Some bs ->
  exists hash,
    generateBlake2bHash data = ([], Normal hash)
    /\ length hash = 64%nat
    /\ String.length (Base64.encode hash) = 88%nat.
Proof.
  intros H. exists (Blake2b.blake2b512 bs).
  split; [now apply generateBlake2bHash_value |].
  split; [apply blake2b512_length |].
  rewrite encode_length, blake2b512_length. reflexivity.
Qed.

Lemma generateBlake2bHash_digest_size_witness :
  data_bytes (JsString "abc") = Some (utf8_bytes "abc")
  /\ exists hash,
       generateBlake2bHash (JsString "abc") = ([], Normal hash)
       /\ length hash = 64%nat
       /\ String.length (Base64.encode hash) = 88%nat.
Proof.
  split; [reflexivity |].
  apply (generateBlake2bHash_digest_size (JsString "abc") (utf8_bytes "abc")).
  reflexivity.
Defined.

(** X2.  [verifySignature] answers [true] exactly when the body can be hashed,
    the declared digest is absent, empty or the canonical digest text, both
    base64 arguments can be turned into buffers, and the provider accepts the
    decoded signature over the 64 digest bytes (not over the payload) under
    the decoded key passed as a raw key; in that case nothing is logged. *)
Theorem verifySignature_accepts_iff
    (crypto_verify : list byte -> KeyInput -> list byte -> Completion bool)
    (body sig : JsData) (d : option string) (pk : JsData) :
  (outcome (verifySignature crypto_verify body sig d pk) = Normal true
   <-> exists bs pkb sigb,
         data_bytes body = Some bs
         /\ (truthy d = false \/ d = Some (calculatedDigest bs))
         /\ b64_buffer pk = Some pkb
         /\ b64_buffer sig = Some sigb
         /\ crypto_verify (Blake2b.blake2b512 bs) (mkKey pkb "raw") sigb
            = Normal true)
  /\ (outcome (verifySignature crypto_verify body sig d pk) = Normal true ->
      logs (verifySignature crypto_verify body sig d pk) = []).
Proof.
  rewrite verifySignature_cases.
  destruct (data_bytes body) as [bs |].
  2:{ split; [split |]; try discriminate.
      intros (bs & pkb & sigb & H & _). discriminate H. }
  assert (Hd : truthy d && negb (String.eqb (default EmptyString d) (calculatedDigest bs))
               = false
               <-> truthy d = false \/ d = Some (calculatedDigest bs)).
  { destruct d as [s |]; cbn [truthy default from_option id].
    - destruct (String.eqb_spec s (calculatedDigest bs)) as [-> | Hne].
      + rewrite andb_false_r. split; auto.
      + cbn [negb]. rewrite andb_true_r. split; [auto |].
        intros [H | [= H]]; [exact H | contradiction].
    - split; auto. }
  destruct (truthy d && _).
  { split; [split |]; try discriminate.
    intros (bs' & pkb & sigb & [= <-] & H & _).
    apply Hd in H. discriminate H. }
  destruct (b64_buffer pk) as [pkb |].
  2:{ split; [split |]; try discriminate.
      intros (bs' & pkb & sigb & _ & _ & H & _). discriminate H. }
  destruct (b64_buffer sig) as [sigb |].
  2:{ split; [split |]; try discriminate.
      intros (bs' & pkb' & sigb & _ & _ & _ & H & _). discriminate H. }
  destruct (crypto_verify _ _ _) as [[|] | e] eqn:Hv.
  - split; [split |]; try reflexivity.
    intros _. exists bs, pkb, sigb.
    repeat (split; [first [reflexivity | now apply Hd] |]). exact Hv.
  - split; [split |]; try discriminate.
    intros (bs' & pkb' & sigb' & [= <-] & _ & [= <-] & [= <-] & H). congruence.
  - split; [split |]; try discriminate.
    intros (bs' & pkb' & sigb' & [= <-] & _ & [= <-] & [= <-] & H). congruence.
Qed.

Lemma sextets_skip (a b : string) (c : ascii) :
  Base64.unbase64 c = None -> Ascii.eqb c "=" = false ->
  Base64.sextets (a +:+ String c b) = Base64.sextets (a +:+ b).
Proof.
  intros Hc Hp. induction a as [| x a IH].
  - rewrite !PemFacts.append_nil. cbn [Base64.sextets]. now rewrite Hp, Hc.
  - rewrite !PemFacts.append_cons. cbn [Base64.sextets]. now rewrite IH.
Qed.

(** X3.  In ASCII text, a character outside the base64 alphabet (other than
    the padding sign) is ignored wherever it occurs in the signature string and
    in the public key string: removing it never changes what [verifySignature]
    logs or returns.  The declared digest enjoys no such tolerance (C4). *)
Theorem verifySignature_ignores_foreign_characters
    (crypto_verify : list byte -> KeyInput -> list byte -> Completion bool)
    (body : JsData) (d : option string) (a b s : string) (c : ascii) :
  is_ascii c = true -> is_ascii_text a = true -> is_ascii_text b = true ->
  is_ascii_text s = true ->
  Base64.unbase64 c = None -> Ascii.eqb c "=" = false ->
  verifySignature crypto_verify body (JsString (a +:+ String c b)) d (JsString s)
  = verifySignature crypto_verify body (JsString (a +:+ b)) d (JsString s)
  /\ verifySignature crypto_verify body (JsString s) d (JsString (a +:+ String c b))
     = verifySignature crypto_verify body (JsString s) d (JsString (a +:+ b)).
Proof.
  intros _ _ _ _ Hc Hp. rewrite !verifySignature_cases. cbn [b64_buffer].
  unfold Base64.decode. now rewrite (sextets_skip a b c Hc Hp).
Qed.

Lemma verifySignature_ignores_foreign_characters_witness :
  is_ascii LF = true /\ is_ascii_text "c2lnbmF0" = true
  /\ is_ascii_text "dXJl" = true
  /\ is_ascii_text "11qYAYKxCrfVS/7TyWQHOg7hcvPapiMlrwIaaPcHURo=" = true
  /\ Base64.unbase64 LF = None /\ Ascii.eqb LF "=" = false
  /\ verifySignature accept_raw32 (JsString "abc")
       (JsString ("c2lnbmF0" +:+ String LF "dXJl")) None
       (signing_public_key sample_subscriber)
     = verifySignature accept_raw32 (JsString "abc")
         (JsString ("c2lnbmF0" +:+ "dXJl")) None
         (signing_public_key sample_subscriber).
Proof.
  repeat (split; [reflexivity |]).
  exact (proj1 (verifySignature_ignores_foreign_characters accept_raw32
                  (JsString "abc") None "c2lnbmF0" "dXJl"
                  "11qYAYKxCrfVS/7TyWQHOg7hcvPapiMlrwIaaPcHURo=" LF
                  eq_refl eq_refl eq_refl eq_refl eq_refl eq_refl)).
Defined.

(** ** The attribute grammar *)

Lemma length_append_s (a b : string) :
  String.length (a +:+ b) = (String.length a + String.length b)%nat.
Proof.
  induction a as [| x a IH]; [reflexivity |].
  rewrite PemFacts.append_cons. cbn [String.length]. now rewrite IH.
Qed.

Lemma take_word_inv (s w rest : string) :
  take_word s = (w, rest) ->
  string_forall is_word_char w = true /\ s = w +:+ rest.
Proof.
  revert w rest. induction s as [| c s IH]; intros w rest; cbn [take_word].
  - intros [= <- <-]. split; reflexivity.
  - destruct (is_word_char c) eqn:Hc.
    + destruct (take_word s) as [w' rest'] eqn:E. intros [= <- <-].
      destruct (IH w' rest' eq_refl) as [Hw ->].
      cbn [string_forall]. rewrite Hc, Hw. split; reflexivity.
    + intros [= <- <-]. split; reflexivity.
Qed.

Lemma take_value_inv (s v rest : string) :
  take_value s = (v, rest) -> is_value v = true /\ s = v +:+ rest.
Proof.
  unfold is_value.
  revert v rest. induction s as [| c s IH]; intros v rest; cbn [take_value].
  - intros [= <- <-]. split; reflexivity.
  - destruct (is_quote c) eqn:Hc.
    + intros [= <- <-]. split; reflexivity.
    + destruct (take_value s) as [v' rest'] eqn:E. intros [= <- <-].
      destruct (IH v' rest' eq_refl) as [Hv ->].
      cbn [string_forall]. rewrite Hc, Hv. split; reflexivity.
Qed.

Lemma match_at_inv (s k v : string) (n : nat) :
  match_at s = Some (k, v, n) ->
  is_name k = true /\ is_value v = true.
Proof.
  unfold match_at.
  destruct (take_word s) as [w rest] eqn:Ew.
  destruct w as [| c w]; [discriminate |].
  destruct rest as [| e rest]; [discriminate |].
  destruct e as [[] [] [] [] [] [] [] []]; try discriminate.
  destruct rest as [| q rest]; [discriminate |].
  destruct (is_quote q); [| discriminate].
  destruct (take_value rest) as [v' rest'] eqn:Ev.
  destruct rest' as [| q' rest']; [discriminate |].
  intros [= <- <- <-].
  apply take_word_inv in Ew as [Hw _]. apply take_value_inv in Ev as [Hv _].
  unfold is_name. cbn [String.eqb]. now rewrite Hw.
Qed.

Lemma exec_all_well_formed (s : string) :
  forall skip, Forall (fun kv => is_name kv.1 = true /\ is_value kv.2 = true)
                 (exec_all skip s).
Proof.
  induction s as [| c s IH]; intros skip; cbn [exec_all]; [constructor |].
  destruct skip as [| k]; [| apply IH].
  destruct (match_at (String c s)) as [[[name value] len] |] eqn:E; [| apply IH].
  constructor; [| apply IH].
  exact (match_at_inv _ _ _ _ E).
Qed.

Lemma take_word_app (k r : string) (c : ascii) :
  string_forall is_word_char k = true -> is_word_char c = false ->
  take_word (k +:+ String c r) = (k, String c r).
Proof.
  intros Hk Hc. induction k as [| x k IH].
  - rewrite PemFacts.append_nil. cbn [take_word]. now rewrite Hc.
  - cbn [string_forall] in Hk. apply andb_true_iff in Hk as [Hx Hk].
    rewrite PemFacts.append_cons. cbn [take_word]. now rewrite Hx, (IH Hk).
Qed.

Lemma take_value_app (v r : string) :
  is_value v = true -> take_value (v +:+ String "034" r) = (v, String "034" r).
Proof.
  unfold is_value. intros Hv. induction v as [| x v IH].
  - reflexivity.
  - cbn [string_forall] in Hv. apply andb_true_iff in Hv as [Hx Hv].
    apply negb_true_iff in Hx.
    rewrite PemFacts.append_cons. cbn [take_value]. now rewrite Hx, (IH Hv).
Qed.

Lemma attr_app (k v rest : string) :
  attr k v +:+ rest = k +:+ String "=" (String "034" (v +:+ String "034" rest)).
Proof.
  unfold attr, quote.
  rewrite !PemFacts.append_assoc_s.
  repeat first [rewrite PemFacts.append_cons | rewrite PemFacts.append_nil].
  reflexivity.
Qed.

Lemma match_at_attr (k v rest : string) :
  is_name k = true -> is_value v = true ->
  match_at (attr k v +:+ rest)
  = Some (k, v, (String.length k + 2 + String.length v + 1)%nat).
Proof.
  unfold is_name. rewrite andb_true_iff. intros [Hne Hk] Hv.
  rewrite attr_app. unfold match_at.
  rewrite (take_word_app k _ "=" Hk eq_refl).
  destruct k as [| c k]; [discriminate Hne |].
  cbn [is_quote]. change (is_quote "034") with true. cbv iota.
  now rewrite (take_value_app v rest Hv).
Qed.

Lemma exec_all_skip_app (a b : string) :
  exec_all (String.length a) (a +:+ b) = exec_all 0 b.
Proof.
  induction a as [| x a IH]; [reflexivity |].
  rewrite PemFacts.append_cons. cbn [String.length exec_all]. exact IH.
Qed.

Lemma exec_all_attr (k v rest : string) :
  is_name k = true -> is_value v = true ->
  exec_all 0 (attr k v +:+ rest) = (k, v) :: exec_all 0 rest.
Proof.
  intros Hk Hv. pose proof (match_at_attr k v rest Hk Hv) as M.
  rewrite attr_app in M |- *.
  destruct k as [| c k]; [discriminate Hk |].
  rewrite PemFacts.append_cons in M |- *.
  cbn [exec_all]. rewrite M. f_equal.
  replace (String.length (String c k) + 2 + String.length v + 1 - 1)%nat
    with (String.length (k +:+ String "=" (String "034" (v +:+ String "034" EmptyString)))).
  - rewrite <- (exec_all_skip_app
                  (k +:+ String "=" (String "034" (v +:+ String "034" EmptyString))) rest).
    f_equal. rewrite PemFacts.append_assoc_s. f_equal.
    rewrite !PemFacts.append_cons. do 2 f_equal.
    rewrite PemFacts.append_assoc_s. now rewrite PemFacts.append_cons, PemFacts.append_nil.
  - rewrite length_append_s. cbn [String.length].
    rewrite length_append_s. cbn [String.length]. lia.
Qed.

Lemma exec_all_comma (rest : string) :
  exec_all 0 (String "," rest) = exec_all 0 rest.
Proof. reflexivity. Qed.

Lemma exec_all_render (l : list (string * string)) :
  Forall (fun kv => is_name kv.1 = true /\ is_value kv.2 = true) l ->
  exec_all 0 (render_attrs l) = l.
Proof.
  induction l as [| [k v] l IH]; intros H; [reflexivity |].
  apply Forall_cons in H as [[Hk Hv] Hl]. cbn [fst snd] in Hk, Hv.
  destruct l as [| kv l].
  - cbn [render_attrs]. rewrite <- (PemFacts.append_nil_r (attr k v)).
    now rewrite exec_all_attr.
  - change (render_attrs ((k, v) :: kv :: l))
      with (attr k v +:+ "," +:+ render_attrs (kv :: l)).
    rewrite exec_all_attr by assumption.
    rewrite PemFacts.append_cons, PemFacts.append_nil, exec_all_comma.
    now rewrite IH.
Qed.

(** X4.  Reading back what was written: for every list of attributes whose
    names are non-empty words and whose values contain no double quote, the
    attributes read from the header [Signature name="value",...] are exactly
    that list, in order. *)
Theorem attributes_of_rendered_header (l : list (string * string)) :
  Forall (fun kv => is_name kv.1 = true /\ is_value kv.2 = true) l ->
  attributes ("Signature " +:+ render_attrs l) = l.
Proof.
  intros H. unfold attributes.
  change (string_drop 10 ("Signature " +:+ render_attrs l)) with (render_attrs l).
  now apply exec_all_render.
Qed.

Lemma attributes_of_rendered_header_witness :
  Forall (fun kv => is_name kv.1 = true /\ is_value kv.2 = true)
    [("keyId", "buyer.example|k1|ed25519"); ("digest", "AAAA")]
  /\ attributes ("Signature "
                 +:+ render_attrs [("keyId", "buyer.example|k1|ed25519");
                                   ("digest", "AAAA")])
     = [("keyId", "buyer.example|k1|ed25519"); ("digest", "AAAA")].
Proof.
  assert (H : Forall (fun kv => is_name kv.1 = true /\ is_value kv.2 = true)
                [("keyId", "buyer.example|k1|ed25519"); ("digest", "AAAA")]).
  { repeat constructor. }
  split; [exact H |].
  exact (attributes_of_rendered_header _ H).
Defined.

(** X5.  What the parser never reads: every attribute name it records is a
    non-empty run of letters, digits and underscores, and no recorded value
    contains a double quote. *)
Theorem attributes_well_formed (h : string) :
  Forall (fun kv => is_name kv.1 = true /\ is_value kv.2 = true) (attributes h).
Proof. apply exec_all_well_formed. Qed.

Lemma split_on_no_sep (sep : ascii) (s : string) :
  string_forall (fun c => negb (Ascii.eqb c sep)) s = true ->
  split_on sep s = [s].
Proof.
  induction s as [| c s IH]; [reflexivity |].
  cbn [string_forall split_on]. rewrite andb_true_iff, negb_true_iff.
  intros [Hc Hs]. now rewrite Hc, (IH Hs).
Qed.

Lemma split_on_app (sep : ascii) (a b : string) :
  string_forall (fun c => negb (Ascii.eqb c sep)) a = true ->
  split_on sep (a +:+ String sep b) = a :: split_on sep b.
Proof.
  induction a as [| c a IH].
  - intros _. rewrite PemFacts.append_nil. cbn [split_on].
    now rewrite Ascii.eqb_refl.
  - cbn [string_forall]. rewrite andb_true_iff, negb_true_iff.
    intros [Hc Ha]. rewrite PemFacts.append_cons. cbn [split_on].
    now rewrite Hc, (IH Ha).
Qed.

Lemma split_on_join (sep : ascii) (s : string) :
  join_with sep (split_on sep s) = s.
Proof.
  induction s as [| c s IH]; [reflexivity |].
  cbn [split_on]. pose proof (split_on_length sep s) as L.
  destruct (Ascii.eqb_spec c sep) as [-> | Hne].
  - destruct (split_on sep s) as [| seg segs]; [discriminate L |].
    change (join_with sep (EmptyString :: seg :: segs))
      with (EmptyString +:+ String sep (join_with sep (seg :: segs))).
    now rewrite PemFacts.append_nil, IH.
  - destruct (split_on sep s) as [| seg segs]; [discriminate L |].
    destruct segs as [| seg' segs].
    + cbn [join_with] in *. now rewrite IH.
    + change (join_with sep (String c seg :: seg' :: segs))
        with (String c seg +:+ String sep (join_with sep (seg' :: segs))).
      change (join_with sep (seg :: seg' :: segs))
        with (seg +:+ String sep (join_with sep (seg' :: segs))) in IH.
      now rewrite PemFacts.append_cons, IH.
Qed.

Lemma split_on_segments (sep : ascii) (s : string) :
  Forall (fun seg => string_forall (fun c => negb (Ascii.eqb c sep)) seg = true)
    (split_on sep s).
Proof.
  induction s as [| c s IH]; [repeat constructor |].
  cbn [split_on]. destruct (Ascii.eqb c sep) eqn:Hc.
  - constructor; [reflexivity | exact IH].
  - destruct (split_on sep s) as [| seg segs]; [repeat constructor; cbn; now rewrite Hc |].
    apply Forall_cons in IH as [Hseg Hsegs].
    constructor; [| exact Hsegs]. cbn [string_forall]. now rewrite Hc, Hseg.
Qed.

Lemma truthy_some (s : string) : truthy (Some s) = true <-> s <> EmptyString.
Proof.
  cbn [truthy]. rewrite negb_true_iff. apply String.eqb_neq.
Qed.

(** X6.  Fields of a successful parse.  When the parser returns a structure,
    the header starts with the prefix, the last [keyId] value is
    [subscriberId|ukId|keyAlgorithm] for some third segment that is dropped,
    none of the three segments contains a bar, [signature] and [algorithm]
    are the non-empty last values of the attributes of these names, the
    declared digest is never the empty string, and [created] and [expires]
    are passed through. *)
Theorem parsed_fields (h : string) (c : SignatureParams) :
  outcome (parseAuthHeader h) = Normal (Some c) ->
  starts_with "Signature " h = true
  /\ (exists keyAlgorithm,
        last_value "keyId" (attributes h)
        = Some (subscriberId c +:+ "|" +:+ ukId c +:+ "|" +:+ keyAlgorithm)
        /\ no_bar keyAlgorithm = true)
  /\ no_bar (subscriberId c) = true /\ no_bar (ukId c) = true
  /\ last_value "signature" (attributes h) = Some (signature c)
  /\ signature c <> EmptyString
  /\ last_value "algorithm" (attributes h) = Some (algorithm c)
  /\ algorithm c <> EmptyString
  /\ digest c <> Some EmptyString
  /\ (digest c = None \/ digest c = last_value "digest" (attributes h))
  /\ created c = last_value "created" (attributes h)
  /\ expires c = last_value "expires" (attributes h).
Proof.
  rewrite parseAuthHeader_cases. unfold outcome. cbn [snd].
  destruct (starts_with "Signature " h); [| discriminate]. cbn [negb].
  destruct (last_value "keyId" (attributes h)) as [kid |]; [| discriminate].
  destruct (last_value "signature" (attributes h)) as [sg |] eqn:Hsg;
    [| cbn; rewrite ?orb_true_r; discriminate].
  destruct (last_value "algorithm" (attributes h)) as [al |] eqn:Hal;
    [| cbn; rewrite ?orb_true_r; discriminate].
  destruct (truthy (Some kid)) eqn:Tk; [| discriminate].
  destruct (truthy (Some sg)) eqn:Ts; [| discriminate].
  destruct (truthy (Some al)) eqn:Ta; [| discriminate].
  cbn [negb orb default from_option id].
  pose proof (split_on_join "|" kid) as J.
  pose proof (split_on_segments "|" kid) as S.
  destruct (split_on "|" kid) as [| a [| b [| k [| x y]]]]; try discriminate.
  intros [= <-]. cbn [subscriberId ukId signature algorithm digest created expires].
  apply Forall_cons in S as [Sa S]. apply Forall_cons in S as [Sb S].
  apply Forall_cons in S as [Sk _].
  split; [reflexivity |]. split.
  { exists k. split; [| exact Sk]. f_equal. rewrite <- J.
    change (join_with "|" [a; b; k]) with (a +:+ String "|" (b +:+ String "|" k)).
    reflexivity. }
  split; [exact Sa |]. split; [exact Sb |].
  split; [reflexivity |]. split; [now apply truthy_some |].
  split; [reflexivity |]. split; [now apply truthy_some |].
  split.
  { destruct (last_value "digest" (attributes h)) as [dg |]; [| discriminate].
    destruct (truthy (Some dg)) eqn:Td; [| discriminate].
    apply truthy_some in Td. congruence. }
  split.
  { destruct (truthy (last_value "digest" (attributes h))); auto. }
  split; reflexivity.
Qed.

Lemma parsed_fields_witness :
  outcome (parseAuthHeader header_wrong_digest)
  = Normal (Some {| subscriberId := "buyer.example";
                    ukId := "k1";
                    algorithm := "ed25519";
                    signature := "c2lnbmF0dXJl";
                    digest := Some "AAAA";
                    created := Some "1700000000";
                    expires := Some "1700000300" |})
  /\ starts_with "Signature " header_wrong_digest = true.
Proof.
  assert (H : outcome (parseAuthHeader header_wrong_digest)
              = Normal (Some {| subscriberId := "buyer.example";
                                ukId := "k1";
                                algorithm := "ed25519";
                                signature := "c2lnbmF0dXJl";
                                digest := Some "AAAA";
                                created := Some "1700000000";
                                expires := Some "1700000300" |}))
    by (vm_compute; reflexivity).
  split; [exact H |].
  exact (proj1 (parsed_fields header_wrong_digest _ H)).
Defined.

(** X7.  A header in the format the middleware documents parses to its
    fields: for bar-free and quote-free [subscriberId], [ukId] and
    [keyAlgorithm], quote-free other values and non-empty [algorithm] and
    [signature], the parser returns the structure holding them, with no
    declared digest. *)
Theorem parse_expected_header
    (sid uk kalg alg created expires headers sig : string) :
  no_bar sid = true -> no_bar uk = true -> no_bar kalg = true ->
  is_value sid = true -> is_value uk = true -> is_value kalg = true ->
  is_value alg = true -> is_value created = true -> is_value expires = true ->
  is_value headers = true -> is_value sig = true ->
  alg <> EmptyString -> sig <> EmptyString ->
  parseAuthHeader (expected_header sid uk kalg alg created expires headers sig)
  = ([], Normal (Some {| subscriberId := sid;
                         ukId := uk;
                         algorithm := alg;
                         signature := sig;
                         digest := None;
                         created := Some created;
                         expires := Some expires |})).
Proof.
  intros Bs Bu Bk Vs Vu Vk Va Vc Ve Vh Vg Na Ng.
  assert (Vid : is_value (sid +:+ "|" +:+ uk +:+ "|" +:+ kalg) = true).
  { unfold is_value in *.
    rewrite !PemFacts.string_forall_app, Vs, Vu, Vk. reflexivity. }
  rewrite parseAuthHeader_cases.
  unfold attributes, expected_header.
  change (string_drop 10 ("Signature " +:+ ?x)) with x.
  rewrite exec_all_render by (repeat constructor; assumption).
  change (starts_with "Signature " ("Signature " +:+ ?x)) with true.
  cbn [negb last_value String.eqb Ascii.eqb Bool.eqb default from_option id].
  assert (Tid : truthy (Some (sid +:+ "|" +:+ uk +:+ "|" +:+ kalg)) = true).
  { apply truthy_some. destruct sid; discriminate. }
  rewrite Tid, (proj2 (truthy_some alg) Na), (proj2 (truthy_some sig) Ng).
  cbn [negb orb truthy].
  change (sid +:+ "|" +:+ uk +:+ "|" +:+ kalg)
    with (sid +:+ String "|" (uk +:+ String "|" kalg)).
  unfold no_bar in *.
  rewrite (split_on_app "|" sid _ Bs), (split_on_app "|" uk _ Bu),
    (split_on_no_sep "|" kalg Bk).
  reflexivity.
Qed.

Lemma parse_expected_header_witness :
  parseAuthHeader
    (expected_header "buyer.example" "k1" "ed25519" "ed25519" "1700000000"
       "1700000300" "(created) (expires) digest" "c2lnbmF0dXJl")
  = ([], Normal (Some {| subscriberId := "buyer.example";
                         ukId := "k1";
                         algorithm := "ed25519";
                         signature := "c2lnbmF0dXJl";
                         digest := None;
                         created := Some "1700000000";
                         expires := Some "1700000300" |})).
Proof.
  apply parse_expected_header; first [reflexivity | discriminate].
Defined.

(** ** The gate, continued *)

(** X8.  Admission.  On a gated path, when the header parses, the registry
    returns a subscriber and [verifySignature] answers [true], the gate calls
    [next()] with exactly that subscriber attached to the request, and logs
    nothing beyond what the verifier logged. *)
Theorem gate_admits_verified
    (crypto_verify : list byte -> KeyInput -> list byte -> Completion bool)
    (lookupSubscriber : string -> string -> Completion (option Subscriber))
    (req : Request) (h : string) (c : SignatureParams) (sub : Subscriber)
    (l : list LogEntry) :
  bypass (path req) = false ->
  authorization req = Some h ->
  outcome (parseAuthHeader h) = Normal (Some c) ->
  lookupSubscriber (subscriberId c) (ukId c) = Normal (Some sub) ->
  verifySignature crypto_verify (rawBody req) (JsString (signature c)) (digest c)
    (signing_public_key sub) = (l, Normal true) ->
  verifyAuthentication crypto_verify lookupSubscriber req
  = (l, Normal (Next (Some sub))).
Proof.
  intros Hb Hh Hp Hl Hv. rewrite gate_cases, Hb, Hh.
  rewrite (parsed_header_nonempty h c Hp). cbn [negb default from_option id].
  rewrite Hp, Hl. cbv zeta. rewrite Hv. reflexivity.
Qed.

Lemma gate_admits_verified_witness :
  verifyAuthentication accept_all registry_with_sample request_plain
  = ([], Normal (Next (Some sample_subscriber))).
Proof.
  apply (gate_admits_verified accept_all registry_with_sample request_plain
           header_plain
           {| subscriberId := "buyer.example";
              ukId := "k1";
              algorithm := "ed25519";
              signature := "c2lnbmF0dXJl";
              digest := None;
              created := Some "1700000000";
              expires := Some "1700000300" |}
           sample_subscriber []).
  - reflexivity.
  - reflexivity.
  - vm_compute. reflexivity.
  - reflexivity.
  - vm_compute. reflexivity.
Defined.

(** X9.  Shape of every answer.  The gate always completes normally: no
    exception reaches the framework.  Whenever it answers the request itself,
    the acknowledgement is [NACK], the error code is the status written as a
    string, and the status is 401 unless the registry lookup threw an
    [ApiError] carrying that status. *)
Theorem gate_always_answers
    (crypto_verify : list byte -> KeyInput -> list byte -> Completion bool)
    (lookupSubscriber : string -> string -> Completion (option Subscriber))
    (req : Request) :
  exists (l : list LogEntry) (a : GateAction),
    verifyAuthentication crypto_verify lookupSubscriber req = (l, Normal a)
    /\ forall r, a = Respond r ->
         ack_status r = "NACK"
         /\ error_code r = String_of_status (status r)
         /\ (status r = 401%Z
             \/ exists sid uk m,
                  lookupSubscriber sid uk = Throw (ApiError m (status r))).
Proof.
  rewrite gate_cases.
  destruct (bypass (path req)).
  { eexists _, _. split; [reflexivity |]. discriminate. }
  destruct (negb (truthy (authorization req))).
  { eexists _, _. split; [reflexivity |]. intros r [= <-]. cbn. auto. }
  destruct (outcome (parseAuthHeader _)) as [[c |] | e].
  2,3: eexists _, _; (split; [reflexivity |]); intros r [= <-]; cbn; auto.
  destruct (lookupSubscriber (subscriberId c) (ukId c))
    as [[sub |] | [m st | n m]] eqn:Hl.
  - cbv zeta.
    destruct (outcome (verifySignature _ _ _ _ _)) as [[|] | e];
      eexists _, _; (split; [reflexivity |]);
      try discriminate; intros r [= <-]; cbn; auto.
  - eexists _, _. split; [reflexivity |]. intros r [= <-]. cbn. auto.
  - eexists _, _. split; [reflexivity |]. intros r [= <-]. cbn [nack ack_status error_code status].
    split; [reflexivity |]. split; [reflexivity |].
    right. exists (subscriberId c), (ukId c), m. exact Hl.
  - eexists _, _. split; [reflexivity |]. intros r [= <-]. cbn. auto.
Qed.

Lemma generated_key_rejected
    (crypto_verify : list byte -> KeyInput -> list byte -> Completion bool)
    (km : KeyMaterial) (body sig : JsData) (d : option string) :
  (forall m k s, length (key k) <> 32%nat -> crypto_verify m k s <> Normal true) ->
  length (public_bytes km) = 32%nat ->
  outcome (verifySignature crypto_verify body sig d
             (JsString (publicKey (generateSigningKeyPair km))))
  <> Normal true.
Proof.
  intros Hraw Hlen Hout.
  destruct (verifySignature_answers crypto_verify body sig d
              (JsString (publicKey (generateSigningKeyPair km))))
    as [b [Hb Htrue]].
  rewrite Hout in Hb. injection Hb as <-.
  destruct (Htrue eq_refl) as (bs & pkb & sigb & _ & Hpk & _ & Hv).
  assert (pkb = Base64.decode (publicKey (generateSigningKeyPair km))) as ->
    by (unfold b64_buffer in Hpk; congruence).
  apply (Hraw _ _ _) in Hv; [exact Hv |].
  change (length (Base64.decode (publicKey (generateSigningKeyPair km))) <> 32%nat).
  rewrite generated_public_key_decoded. cbn [spki_header length app]. lia.
Qed.

(** X10.  The key generator and the gate together.  If every subscriber the
    registry returns carries, as its signing public key, the public key string
    of a generated signing pair, then no request on a gated path is ever
    passed on: whatever its header, body and signature, the gate answers with
    a rejection (for every provider that accepts a raw key only when it is 32
    bytes long). *)
Theorem gate_rejects_under_generated_keys
    (crypto_verify : list byte -> KeyInput -> list byte -> Completion bool)
    (lookupSubscriber : string -> string -> Completion (option Subscriber))
    (req : Request) :
  (forall m k s, length (key k) <> 32%nat -> crypto_verify m k s <> Normal true) ->
  (forall sid uk sub,
     lookupSubscriber sid uk = Normal (Some sub) ->
     exists km, length (public_bytes km) = 32%nat
                /\ signing_public_key sub
                   = JsString (publicKey (generateSigningKeyPair km))) ->
  bypass (path req) = false ->
  exists l r, verifyAuthentication crypto_verify lookupSubscriber req
              = (l, Normal (Respond r)).
Proof.
  intros Hraw Hreg Hb. rewrite gate_cases, Hb.
  destruct (negb (truthy (authorization req))); [eexists _, _; reflexivity |].
  destruct (outcome (parseAuthHeader _)) as [[c |] | e];
    try (eexists _, _; reflexivity).
  destruct (lookupSubscriber (subscriberId c) (ukId c))
    as [[sub |] | [m st | n m]] eqn:Hl; try (eexists _, _; reflexivity).
  destruct (Hreg _ _ _ Hl) as (km & Hlen & Hkey).
  cbv zeta. rewrite Hkey.
  pose proof (generated_key_rejected crypto_verify km (rawBody req)
                (JsString (signature c)) (digest c) Hraw Hlen) as Hno.
  destruct (outcome (verifySignature _ _ _ _ _)) as [[|] | e];
    [now elim Hno | |]; eexists _, _; reflexivity.
Qed.

Lemma gate_rejects_under_generated_keys_witness :
  exists l r, verifyAuthentication accept_raw32 registry_with_generated request_plain
              = (l, Normal (Respond r)).
Proof.
  apply gate_rejects_under_generated_keys.
  - intros m k s Hk. unfold accept_raw32.
    destruct (Nat.eqb_spec (length (key k)) 32); [contradiction | discriminate].
  - intros sid uk sub H. exists sample_material. split; [reflexivity |].
    assert (sub = mkSubscriber sid uk
                    (JsString (publicKey (generateSigningKeyPair sample_material))))
      as -> by (unfold registry_with_generated in H; congruence).
    reflexivity.
  - reflexivity.
Defined.

(** ** The key generator, continued *)

Lemma generated_private_key_text (km : KeyMaterial) :
  privateKey (generateSigningKeyPair km)
  = Base64.encode (pkcs8_der Ed25519 (secret_bytes km)).
Proof.
  unfold generateSigningKeyPair, generateKeyPairSync. cbn [privateKey].
  now rewrite PemFacts.extract_pem by reflexivity.
Qed.

Lemma generated_encryption_key_text (km : KeyMaterial) :
  publicKey (generateEncryptionKeyPair km)
  = Base64.encode (spki_der X25519 (public_bytes km))
  /\ privateKey (generateEncryptionKeyPair km)
     = Base64.encode (pkcs8_der X25519 (secret_bytes km)).
Proof.
  unfold generateEncryptionKeyPair, generateKeyPairSync. cbn [publicKey privateKey].
  now rewrite !PemFacts.extract_pem by reflexivity.
Qed.

Lemma encode_cons3 (a b c : byte) (r : list byte) :
  Base64.encode (a :: b :: c :: r)
  = String (Base64.b64char (Byte.to_N a / 4))
      (String (Base64.b64char ((Byte.to_N a mod 4) * 16 + Byte.to_N b / 16))
         (String (Base64.b64char ((Byte.to_N b mod 16) * 4 + Byte.to_N c / 64))
            (String (Base64.b64char (Byte.to_N c mod 64)) (Base64.encode r)))).
Proof. reflexivity. Qed.

Lemma encode_spki (c : Curve) (pub : list byte) :
  Base64.encode (spki_der c pub)
  = (match c with
     | Ed25519 => "MCowBQYDK2VwAyEA"
     | X25519 => "MCowBQYDK2VuAyEA"
     end) +:+ Base64.encode pub.
Proof.
  unfold spki_der, spki_header. cbn [app].
  rewrite !encode_cons3.
  repeat first [rewrite PemFacts.append_cons | rewrite PemFacts.append_nil].
  destruct c; reflexivity.
Qed.

(** X11.  The strings of a signing pair.  The public key string is the fixed
    sixteen characters [MCowBQYDK2VwAyEA] followed by the base64 text of the
    bare public key, and the private key string decodes to the 16-byte PKCS#8
    header followed by the seed. *)
Theorem signing_key_pair_text (km : KeyMaterial) :
  publicKey (generateSigningKeyPair km)
  = "MCowBQYDK2VwAyEA" +:+ Base64.encode (public_bytes km)
  /\ Base64.decode (privateKey (generateSigningKeyPair km))
     = pkcs8_header Ed25519 ++ secret_bytes km
  /\ length (Base64.decode (privateKey (generateSigningKeyPair km)))
     = (16 + length (secret_bytes km))%nat.
Proof.
  rewrite generated_public_key_text, generated_private_key_text.
  rewrite Base64Facts.decode_encode, (encode_spki Ed25519).
  repeat split; reflexivity.
Qed.

(** X12.  The strings of an encryption pair.  The public key string is
    [MCowBQYDK2VuAyEA] followed by the base64 text of the bare X25519 key and
    decodes to the 12-byte SubjectPublicKeyInfo header followed by the key;
    the private key string decodes to the PKCS#8 header followed by the
    secret.  Neither string is the bare key. *)
Theorem encryption_key_pair_text (km : KeyMaterial) :
  publicKey (generateEncryptionKeyPair km)
  = "MCowBQYDK2VuAyEA" +:+ Base64.encode (public_bytes km)
  /\ Base64.decode (publicKey (generateEncryptionKeyPair km))
     = spki_header X25519 ++ public_bytes km
  /\ Base64.decode (privateKey (generateEncryptionKeyPair km))
     = pkcs8_header X25519 ++ secret_bytes km.
Proof.
  destruct (generated_encryption_key_text km) as [-> ->].
  rewrite !Base64Facts.decode_encode, (encode_spki X25519).
  repeat split; reflexivity.
Qed.

(** X13.  Armour round trip.  For every label without dashes and line breaks
    and every byte sequence, of any length (so also for bodies wrapped over
    several lines), [extractRawKeyFromPem] applied to the PEM text gives the
    bytes that were armoured. *)
Theorem extractRawKeyFromPem_inverts_pem (label : string) (der : list byte) :
  string_forall label_char label = true ->
  extractRawKeyFromPem (pem_encode label der) = der.
Proof. apply PemFacts.extract_pem. Qed.

Lemma extractRawKeyFromPem_inverts_pem_witness :
  string_forall label_char "CERTIFICATE" = true
  /\ extractRawKeyFromPem (pem_encode "CERTIFICATE" (repeat x41 100))
     = repeat x41 100.
Proof.
  split; [reflexivity |].
  apply (extractRawKeyFromPem_inverts_pem "CERTIFICATE" (repeat x41 100)).
  reflexivity.
Defined.

Lemma remove_first_no_dash (o close s : string) :
  string_forall not_dash s = true ->
  remove_first (String "-" o) close s = s.
Proof.
  intros H. rewrite <- (PemFacts.append_nil_r s) at 1.
  rewrite PemFacts.remove_first_skip by assumption.
  cbn [remove_first starts_with]. apply PemFacts.append_nil_r.
Qed.

(** X14.  Text without armour.  Applied to base64 text that has no BEGIN and
    END lines, whether on one line or wrapped in lines of 64 characters,
    [extractRawKeyFromPem] is plain base64 decoding: it gives back the encoded
    bytes. *)
Theorem extractRawKeyFromPem_bare_base64 (bs : list byte) (col : nat) :
  extractRawKeyFromPem (Base64.encode bs) = bs
  /\ extractRawKeyFromPem (wrap_lines col (Base64.encode bs)) = bs.
Proof.
  assert (Hd : string_forall not_dash (Base64.encode bs) = true).
  { eapply PemFacts.string_forall_weaken; [| apply PemFacts.encode_chars].
    intros c H. apply andb_true_iff in H. tauto. }
  assert (Hl : string_forall not_lf (Base64.encode bs) = true).
  { eapply PemFacts.string_forall_weaken; [| apply PemFacts.encode_chars].
    intros c H. apply andb_true_iff in H. tauto. }
  assert (Hw : extractRawKeyFromPem (wrap_lines col (Base64.encode bs)) = bs).
  { unfold extractRawKeyFromPem.
    rewrite (remove_first_no_dash "----BEGIN" "-----" (wrap_lines col (Base64.encode bs)))
      by (now apply PemFacts.wrap_not_dash).
    rewrite (remove_first_no_dash "----END" "-----" (wrap_lines col (Base64.encode bs)))
      by (now apply PemFacts.wrap_not_dash).
    rewrite PemFacts.remove_newlines_wrap by assumption.
    apply Base64Facts.decode_encode. }
  split; [| exact Hw].
  unfold extractRawKeyFromPem.
  rewrite (remove_first_no_dash "----BEGIN" "-----" (Base64.encode bs)) by assumption.
  rewrite (remove_first_no_dash "----END" "-----" (Base64.encode bs)) by assumption.
  assert (Hn : forall s, string_forall not_lf s = true -> remove_newlines s = s).
  { induction s as [| c s IH]; [reflexivity |].
    cbn [string_forall remove_newlines]. unfold not_lf at 1.
    rewrite andb_true_iff, negb_true_iff. intros [-> Hs]. now rewrite IH. }
  rewrite Hn by assumption. apply Base64Facts.decode_encode.
Qed.

(** ** The key loader and the key files *)

Lemma encode_forall (p : ascii -> bool) (bs : list byte) :
  (forall n, (n < 64)%N -> p (Base64.b64char n) = true) -> p "="%char = true ->
  string_forall p (Base64.encode bs) = true.
Proof.
  intros D E.
  induction bs as [| a | a b | a b c r IH] using Base64Facts.list_ind3.
  - reflexivity.
  - pose proof (Base64Facts.to_N_lt a).
    change (Base64.encode [a])
      with (String (Base64.b64char (Byte.to_N a / 4))
              (String (Base64.b64char ((Byte.to_N a mod 4) * 16)) "==")).
    cbn [string_forall]. rewrite !D, E by Base64Facts.ndiv. reflexivity.
  - pose proof (Base64Facts.to_N_lt a). pose proof (Base64Facts.to_N_lt b).
    change (Base64.encode [a; b])
      with (String (Base64.b64char (Byte.to_N a / 4))
              (String (Base64.b64char ((Byte.to_N a mod 4) * 16 + Byte.to_N b / 16))
                 (String (Base64.b64char ((Byte.to_N b mod 16) * 4)) "="))).
    cbn [string_forall]. rewrite !D, E by Base64Facts.ndiv. reflexivity.
  - pose proof (Base64Facts.to_N_lt a). pose proof (Base64Facts.to_N_lt b).
    pose proof (Base64Facts.to_N_lt c).
    rewrite encode_cons3. cbn [string_forall].
    rewrite !D by Base64Facts.ndiv. now rewrite IH.
Qed.

Lemma trim_ascii_no_space (s : string) :
  string_forall (fun c => negb (is_ascii_space c)) s = true -> trim_ascii s = s.
Proof.
  intros H. unfold trim_ascii.
  assert (S : trim_start s = s).
  { destruct s as [| c s]; [reflexivity |].
    cbn [string_forall] in H. apply andb_true_iff in H as [Hc _].
    apply negb_true_iff in Hc. cbn [trim_start]. now rewrite Hc. }
  rewrite S. clear S.
  induction s as [| c s IH]; [reflexivity |].
  cbn [string_forall] in H. apply andb_true_iff in H as [Hc Hs].
  apply negb_true_iff in Hc. cbn [trim_end]. rewrite (IH Hs).
  destruct s; [now rewrite Hc | reflexivity].
Qed.

Lemma trim_ascii_encode (bs : list byte) :
  trim_ascii (Base64.encode bs) = Base64.encode bs.
Proof.
  apply trim_ascii_no_space, encode_forall; [| reflexivity].
  apply (Base64Facts.forall_below_64
           (fun n => negb (is_ascii_space (Base64.b64char n)))).
  vm_compute. reflexivity.
Qed.

(** X15.  One unreadable file hides the files after it.  In the file branch
    the four files are read in the order signing private, signing public,
    encryption private, encryption public, inside one [try]: when reading the
    first throws, nothing is taken from any file and the result is what the
    environment gave; when the first is fine and the second throws, only the
    signing private key comes from its file.  In both cases the loader
    returns normally and writes one line to the error console. *)
Theorem loadKeys_stops_at_unreadable_file
    (path_join : string -> string -> string) (trim : string -> string)
    (env : gmap string string) (fs : gmap string FsEntry) (e : JsError) :
  truthy (env !! "ONDC_SIGNING_PRIVATE_KEY") = false ->
  (fs !! path_join (keys_dir env) "signing_private_key.b64" = Some (FsUnreadable e) ->
   loadKeys path_join trim env fs
   = ({| signingPublicKey := env !! "ONDC_SIGNING_PUBLIC_KEY";
         signingPrivateKey := env !! "ONDC_SIGNING_PRIVATE_KEY";
         encryptionPublicKey := env !! "ONDC_ENCRYPTION_PUBLIC_KEY";
         encryptionPrivateKey := env !! "ONDC_ENCRYPTION_PRIVATE_KEY" |},
      ["Error loading keys from files: " +:+ error_message e]))
  /\ ((forall e', fs !! path_join (keys_dir env) "signing_private_key.b64"
                  <> Some (FsUnreadable e')) ->
      fs !! path_join (keys_dir env) "signing_public_key.b64" = Some (FsUnreadable e) ->
      loadKeys path_join trim env fs
      = ({| signingPublicKey := env !! "ONDC_SIGNING_PUBLIC_KEY";
            signingPrivateKey :=
              file_or_env path_join trim env fs
                "signing_private_key.b64" "ONDC_SIGNING_PRIVATE_KEY";
            encryptionPublicKey := env !! "ONDC_ENCRYPTION_PUBLIC_KEY";
            encryptionPrivateKey := env !! "ONDC_ENCRYPTION_PRIVATE_KEY" |},
         ["Error loading keys from files: " +:+ error_message e])).
Proof.
  intros Ht. unfold loadKeys. cbn [signingPrivateKey]. rewrite Ht. cbn [negb].
  fold (keys_dir env). cbv zeta. split.
  - intros H1. rewrite (load_file_unreadable trim fs _ _ _ e H1). reflexivity.
  - intros H1 H2. rewrite load_file_readable by exact H1.
    unfold and_then at 3.
    rewrite (load_file_unreadable trim fs _ _ _ e H2).
    unfold file_or_env.
    destruct (fs !! path_join (keys_dir env) "signing_private_key.b64")
      as [[c | e'] |]; reflexivity.
Qed.

Lemma loadKeys_stops_at_unreadable_file_witness :
  truthy (env_public_only !! "ONDC_SIGNING_PRIVATE_KEY") = false
  /\ loadKeys join_with_slash trim_ascii env_public_only fs_private_is_directory
     = ({| signingPublicKey := env_public_only !! "ONDC_SIGNING_PUBLIC_KEY";
           signingPrivateKey := env_public_only !! "ONDC_SIGNING_PRIVATE_KEY";
           encryptionPublicKey := env_public_only !! "ONDC_ENCRYPTION_PUBLIC_KEY";
           encryptionPrivateKey := env_public_only !! "ONDC_ENCRYPTION_PRIVATE_KEY" |},
        ["Error loading keys from files: "
         +:+ "EISDIR: illegal operation on a directory, read"]).
Proof.
  assert (H : truthy (env_public_only !! "ONDC_SIGNING_PRIVATE_KEY") = false)
    by (vm_compute; reflexivity).
  split; [exact H |].
  apply (proj1 (loadKeys_stops_at_unreadable_file join_with_slash trim_ascii
                  env_public_only fs_private_is_directory
                  (OtherError "Error" "EISDIR: illegal operation on a directory, read")
                  H)).
  vm_compute. reflexivity.
Defined.

(** X16.  Saving and loading compose.  Suppose a successful write stores the
    text at its path and leaves every other path alone, the four key paths
    are distinct, and trimming leaves base64 text unchanged.  If
    [generateAndSaveKeys] returns normally, it returns the two generated pairs,
    and [loadKeys], run on the file system it left with the key directory set
    to the output directory and no signing private key in the environment,
    gives back exactly the four generated strings and writes nothing to the
    error console. *)
Theorem saved_keys_load_back
    (path_join : string -> string -> string) (trim : string -> string)
    (mkdirSync : gmap string FsEntry -> string -> Completion (gmap string FsEntry))
    (writeFileSync :
       gmap string FsEntry -> string -> string -> Completion (gmap string FsEntry))
    (signing encryption : KeyMaterial) (outputDir : option string)
    (env : gmap string string) (fs fs' : gmap string FsEntry)
    (console : list string) (saved : SavedKeys) :
  (forall f p c f', writeFileSync f p c = Normal f' ->
     f' !! p = Some (FsFile c) /\ forall q, q <> p -> f' !! q = f !! q) ->
  NoDup (map (path_join (default "./keys" outputDir))
           ["signing_private_key.b64"; "signing_public_key.b64";
            "encryption_private_key.b64"; "encryption_public_key.b64"]) ->
  (forall bs, trim (Base64.encode bs) = Base64.encode bs) ->
  truthy (env !! "ONDC_SIGNING_PRIVATE_KEY") = false ->
  keys_dir env = default "./keys" outputDir ->
  generateAndSaveKeys path_join mkdirSync writeFileSync signing encryption
    outputDir fs = (fs', console, Normal saved) ->
  saved = {| signingKeys := generateSigningKeyPair signing;
             encryptionKeys := generateEncryptionKeyPair encryption |}
  /\ loadKeys path_join trim env fs'
     = ({| signingPublicKey := Some (publicKey (signingKeys saved));
           signingPrivateKey := Some (privateKey (signingKeys saved));
           encryptionPublicKey := Some (publicKey (encryptionKeys saved));
           encryptionPrivateKey := Some (privateKey (encryptionKeys saved)) |}, []).
Proof.
  intros Hw Hnd Htrim Henv Hdir Hrun.
  unfold generateAndSaveKeys in Hrun. cbv zeta in Hrun.
  set (dir := default "./keys" outputDir) in *.
  destruct (if negb (existsSync fs dir) then mkdirSync fs dir else Normal fs)
    as [fs0 | e0]; [| discriminate Hrun].
  destruct (writeFileSync fs0 _ _) as [fs1 | e1] eqn:W1; [| discriminate Hrun].
  destruct (writeFileSync fs1 _ _) as [fs2 | e2] eqn:W2; [| discriminate Hrun].
  destruct (writeFileSync fs2 _ _) as [fs3 | e3] eqn:W3; [| discriminate Hrun].
  destruct (writeFileSync fs3 _ _) as [fs4 | e4] eqn:W4; [| discriminate Hrun].
  injection Hrun as <- _ <-.
  split; [reflexivity |]. cbn [signingKeys encryptionKeys].
  apply Hw in W1 as [R1 _]. apply Hw in W2 as [R2 K2].
  apply Hw in W3 as [R3 K3]. apply Hw in W4 as [R4 K4].
  cbn [map] in Hnd.
  apply NoDup_cons in Hnd as [N1 Hnd]. apply NoDup_cons in Hnd as [N2 Hnd].
  apply NoDup_cons in Hnd as [N3 _].
  repeat rewrite not_elem_of_cons in N1. repeat rewrite not_elem_of_cons in N2.
  repeat rewrite not_elem_of_cons in N3.
  destruct N1 as (N12 & N13 & N14 & _). destruct N2 as (N23 & N24 & _).
  destruct N3 as (N34 & _).
  assert (L4 : fs4 !! path_join dir "encryption_public_key.b64"
               = Some (FsFile (publicKey (generateEncryptionKeyPair encryption))))
    by exact R4.
  assert (L3 : fs4 !! path_join dir "encryption_private_key.b64"
               = Some (FsFile (privateKey (generateEncryptionKeyPair encryption))))
    by (rewrite K4 by assumption; exact R3).
  assert (L2 : fs4 !! path_join dir "signing_public_key.b64"
               = Some (FsFile (publicKey (generateSigningKeyPair signing))))
    by (rewrite K4, K3 by assumption; exact R2).
  assert (L1 : fs4 !! path_join dir "signing_private_key.b64"
               = Some (FsFile (privateKey (generateSigningKeyPair signing))))
    by (rewrite K4, K3, K2 by assumption; exact R1).
  unfold loadKeys. cbn [signingPrivateKey]. rewrite Henv. cbn [negb].
  fold (keys_dir env). rewrite Hdir. fold dir. cbv zeta.
  rewrite load_file_readable by (rewrite L1; discriminate).
  unfold and_then.
  rewrite load_file_readable by (rewrite L2; discriminate).
  rewrite load_file_readable by (rewrite L3; discriminate).
  rewrite load_file_readable by (rewrite L4; discriminate).
  rewrite L1, L2, L3, L4.
  destruct (generated_encryption_key_text encryption) as [-> ->].
  rewrite generated_public_key_text, generated_private_key_text, !Htrim.
  reflexivity.
Qed.

Lemma saved_keys_load_back_witness :
  loadKeys join_with_slash trim_ascii env_keys_in_out
    (generateAndSaveKeys join_with_slash make_directory write_entry
       sample_material encryption_material (Some "out") ∅).1.1
  = ({| signingPublicKey :=
          Some (publicKey (generateSigningKeyPair sample_material));
        signingPrivateKey :=
          Some (privateKey (generateSigningKeyPair sample_material));
        encryptionPublicKey :=
          Some (publicKey (generateEncryptionKeyPair encryption_material));
        encryptionPrivateKey :=
          Some (privateKey (generateEncryptionKeyPair encryption_material)) |}, []).
Proof.
  refine (proj2 (saved_keys_load_back join_with_slash trim_ascii make_directory
                   write_entry sample_material encryption_material (Some "out")
                   env_keys_in_out ∅ _
                   (generateAndSaveKeys join_with_slash make_directory write_entry
                      sample_material encryption_material (Some "out") ∅).1.2
                   {| signingKeys := generateSigningKeyPair sample_material;
                      encryptionKeys := generateEncryptionKeyPair encryption_material |}
                   _ _ _ _ _ _)).
  - intros f p c f' [= <-]. split.
    + apply lookup_insert_eq.
    + intros q Hq. now apply lookup_insert_ne.
  - vm_compute.
    repeat (apply NoDup_cons_2;
            [intros H;
             repeat (apply elem_of_cons in H as [H | H]; [discriminate H |]);
             inversion H |]).
    apply NoDup_nil_2.
  - exact trim_ascii_encode.
  - vm_compute. reflexivity.
  - vm_compute. reflexivity.
  - reflexivity.
Defined.

(** ** The error handler *)

(** X17.  [errorHandler] logs one error entry and answers with a status that
    is never zero: the error's own status when that is a non-zero number,
    500 when it is zero or undefined.  The message is never empty.  With
    [NODE_ENV] equal to [production] the [details] field is the fixed text, yet
    the [message] field still carries the error's own message whenever that is
    not empty. *)
Theorem errorHandler_response (node_env : option string) (err : ErrObject) :
  exists r : ErrorResponse,
    errorHandler node_env err = ([mkLog LError "API Error"], Normal r)
    /\ er_status r <> 0%Z
    /\ (forall n, err_status err = Some n -> n <> 0%Z -> er_status r = n)
    /\ (err_status err = None \/ err_status err = Some 0%Z -> er_status r = 500%Z)
    /\ er_message r <> EmptyString
    /\ (err_message err <> EmptyString -> er_message r = err_message err)
    /\ (node_env = Some "production" ->
        er_details r = "An unexpected error occurred")
    /\ (node_env <> Some "production" -> er_details r = err_message err).
Proof.
  eexists. split; [reflexivity |].
  cbn [er_status er_message er_details].
  split.
  { unfold status_or_500. destruct (err_status err) as [n |]; [| discriminate].
    destruct (Z.eqb_spec n 0); [discriminate | assumption]. }
  split.
  { intros n -> Hn. unfold status_or_500.
    destruct (Z.eqb_spec n 0); [contradiction | reflexivity]. }
  split.
  { intros [-> | ->]; reflexivity. }
  split.
  { destruct (String.eqb_spec (err_message err) EmptyString); [discriminate | assumption]. }
  split.
  { intros H. destruct (String.eqb_spec (err_message err) EmptyString);
      [contradiction | reflexivity]. }
  split.
  { intros ->. reflexivity. }
  intros H.
  destruct node_env as [s |]; cbn [default from_option id]; [| reflexivity].
  destruct (String.eqb_spec s "production") as [-> | Hne]; [now elim H | reflexivity].
Qed.

(** ** The matching loop and the remaining rejections *)

(** X18.  Last occurrence wins.  Among its own properties, the object
    filled by the matching loop holds, under each name other than [__proto__],
    the value of the last attribute of that name in the text, and nothing
    under such a name when no attribute has it; under [__proto__] it never
    stores anything, because that assignment is taken by the inherited
    setter. *)
Theorem components_hold_last_value (s k : string) :
  (k <> "__proto__" ->
   (forall v before after,
      exec_all 0 s = before ++ (k, v) :: after -> ~ In k (map fst after) ->
      parse_components s !! k = Some v)
   /\ (~ In k (map fst (exec_all 0 s)) -> parse_components s !! k = None))
  /\ parse_components s !! "__proto__" = None.
Proof.
  unfold parse_components. split.
  - intros Hk. rewrite foldl_assign_lookup by exact Hk. split.
    + intros v before after -> Hlast.
      now rewrite (last_value_last k v before after Hlast).
    + intros H. rewrite (last_value_none k _ H). apply lookup_empty.
  - rewrite foldl_assign_proto. apply lookup_empty.
Qed.

Lemma components_hold_last_value_witness :
  "digest" <> "__proto__"
  /\ exec_all 0 (attr "__proto__" "x" +:+ "," +:+ attr "digest" "AAAA" +:+ ","
                 +:+ attr "digest" "BBBB")
     = [("__proto__", "x"); ("digest", "AAAA")] ++ ("digest", "BBBB") :: []
  /\ parse_components (attr "__proto__" "x" +:+ "," +:+ attr "digest" "AAAA" +:+ ","
                       +:+ attr "digest" "BBBB") !! "digest" = Some "BBBB"
  /\ parse_components (attr "__proto__" "x" +:+ "," +:+ attr "digest" "AAAA" +:+ ","
                       +:+ attr "digest" "BBBB") !! "__proto__" = None.
Proof.
  assert (H1 : "digest" <> "__proto__") by discriminate.
  assert (H2 : exec_all 0 (attr "__proto__" "x" +:+ "," +:+ attr "digest" "AAAA"
                           +:+ "," +:+ attr "digest" "BBBB")
               = [("__proto__", "x"); ("digest", "AAAA")] ++ ("digest", "BBBB") :: [])
    by (vm_compute; reflexivity).
  pose proof (components_hold_last_value
                (attr "__proto__" "x" +:+ "," +:+ attr "digest" "AAAA" +:+ ","
                 +:+ attr "digest" "BBBB") "digest") as [T P].
  split; [exact H1 |]. split; [exact H2 |]. split; [| exact P].
  exact (proj1 (T H1) "BBBB" _ _ H2 (fun H => H)).
Defined.

(** X19.  A header that does not parse is rejected before anything else
    happens: on a gated path with a non-empty authorization header for which
    the parser returns the absent value, the gate answers 401 with the message
    [Invalid authorization header format] and one warning, whatever the
    registry and the provider would do and whatever the body is. *)
Theorem gate_rejects_malformed_header
    (crypto_verify : list byte -> KeyInput -> list byte -> Completion bool)
    (lookupSubscriber : string -> string -> Completion (option Subscriber))
    (req : Request) (h : string) :
  bypass (path req) = false ->
  authorization req = Some h -> h <> EmptyString ->
  outcome (parseAuthHeader h) = Normal None ->
  verifyAuthentication crypto_verify lookupSubscriber req
  = ([mkLog LWarn "Invalid authorization header format"],
     Normal (Respond (nack 401 "401" "Invalid authorization header format"))).
Proof.
  intros Hb Hh Hne Hp. rewrite gate_cases, Hb, Hh.
  rewrite (proj2 (truthy_some h) Hne). cbn [negb default from_option id].
  now rewrite Hp.
Qed.

Lemma gate_rejects_malformed_header_witness :
  verifyAuthentication accept_all registry_with_sample
    (mkRequest "/search" (Some header_signature_empty) (JsString "abc"))
  = ([mkLog LWarn "Invalid authorization header format"],
     Normal (Respond (nack 401 "401" "Invalid authorization header format"))).
Proof.
  apply (gate_rejects_malformed_header accept_all registry_with_sample
           (mkRequest "/search" (Some header_signature_empty) (JsString "abc"))
           header_signature_empty).
  - reflexivity.
  - reflexivity.
  - discriminate.
  - vm_compute. reflexivity.
Defined.

(** X20.  A signature that does not verify.  On a gated path, when the header
    parses and the registry returns a subscriber but [verifySignature] answers
    [false], the gate answers 401 with the message
    [Signature verification failed]; its log is the verifier's log followed by
    one warning, and the subscriber is not attached. *)
Theorem gate_rejects_failed_verification
    (crypto_verify : list byte -> KeyInput -> list byte -> Completion bool)
    (lookupSubscriber : string -> string -> Completion (option Subscriber))
    (req : Request) (h : string) (c : SignatureParams) (sub : Subscriber)
    (l : list LogEntry) :
  bypass (path req) = false ->
  authorization req = Some h ->
  outcome (parseAuthHeader h) = Normal (Some c) ->
  lookupSubscriber (subscriberId c) (ukId c) = Normal (Some sub) ->
  verifySignature crypto_verify (rawBody req) (JsString (signature c)) (digest c)
    (signing_public_key sub) = (l, Normal false) ->
  verifyAuthentication crypto_verify lookupSubscriber req
  = (l ++ [mkLog LWarn "Signature verification failed"],
     Normal (Respond (nack 401 "401" "Signature verification failed"))).
Proof.
  intros Hb Hh Hp Hl Hv. rewrite gate_cases, Hb, Hh.
  rewrite (parsed_header_nonempty h c Hp). cbn [negb default from_option id].
  rewrite Hp, Hl. cbv zeta. rewrite Hv. reflexivity.
Qed.

Lemma gate_rejects_failed_verification_witness :
  verifyAuthentication reject_all registry_with_sample request_plain
  = ([] ++ [mkLog LWarn "Signature verification failed"],
     Normal (Respond (nack 401 "401" "Signature verification failed"))).
Proof.
  apply (gate_rejects_failed_verification reject_all registry_with_sample
           request_plain header_plain
           {| subscriberId := "buyer.example";
              ukId := "k1";
              algorithm := "ed25519";
              signature := "c2lnbmF0dXJl";
              digest := None;
              created := Some "1700000000";
              expires := Some "1700000300" |}
           sample_subscriber []).
  - reflexivity.
  - reflexivity.
  - vm_compute. reflexivity.
  - reflexivity.
  - vm_compute. reflexivity.
Defined.
